(** * simple-rdbms: the page format and the table access layer

    A shallow embedding of [src/storage/page.py], [src/storage/file_manager.py]
    and [src/storage/table.py].

    Conventions.
    - A Python [int] is a [Z]; a [bytes] object is a [list byte]; a [str] is
      the list of its code points ([pystr]).
    - A call that may raise returns a [result]; [Raise e] is the exception
      leaving the call.  Methods that mutate [self] or the disk return the new
      state next to their outcome, also when they raise.
    - An attribute that [__init__] never assigns is an [option] field of the
      object which [__init__] leaves at [None]; reading it raises
      [AttributeError].  A method the class does not define raises
      [AttributeError] when it is looked up. *)

From Stdlib Require Import ZArith Lia Strings.String Strings.Byte.
From stdpp Require Import base option list gmap.

Set Warnings "-register-all".
Local Open Scope Z_scope.

(** ** Exceptions and the error monad *)

Inductive exn : Type :=
| AttributeError (owner attr : string)
| NameError (name : string)
| UnboundLocalError (name : string)
| KeyError
| IndexError
| TypeError (msg : string)
| ValueError (msg : string)
| StructError (msg : string)
| JSONDecodeError (msg : string)
| UnicodeDecodeError
| OSError (msg : string)
| RecursionError.

Inductive result (A : Type) : Type :=
| Ok (a : A)
| Raise (e : exn).
Arguments Ok {A} a.
Arguments Raise {A} e.

#[global] Instance result_ret : MRet result := fun _ a => Ok a.
#[global] Instance result_bind : MBind result := fun _ _ k m =>
  match m with
  | Ok a => k a
  | Raise e => Raise e
  end.

Definition raises {A} (m : result A) : Prop :=
  match m with Ok _ => False | Raise _ => True end.

(** ** Python values *)

(** A [str]: its code points. *)
Definition pystr : Type := list N.

(** The [str] an ASCII literal of the source denotes. *)
Definition str (s : string) : pystr :=
  map (fun b => Byte.to_N b) (list_byte_of_string s).

(** The values a row can hold and [json.loads] can return.  IEEE doubles are
    not modelled arithmetically: a [float] is carried by the text
    [float.__repr__] prints for it, which is all [json.dumps] uses.  A [dict]
    keeps its insertion order; its keys are [str], as the rows' are. *)
Inductive pyvalue : Type :=
| PyNone
| PyBool (b : bool)
| PyInt (z : Z)
| PyFloat (repr : string)
| PyStr (s : pystr)
| PyList (items : list pyvalue)
| PyDict (items : list (pystr * pyvalue)).

#[global] Instance pyvalue_inhabited : Inhabited pyvalue := populate PyNone.

Definition pystr_eqb (a b : pystr) : bool := bool_decide (a = b).

(** [d[k]] for reading, [d.get(k)], [k in d]. *)
Fixpoint dict_get {V} (d : list (pystr * V)) (k : pystr) : option V :=
  match d with
  | [] => None
  | (k', v) :: d' => if pystr_eqb k' k then Some v else dict_get d' k
  end.

(** [d[k] = v]: an existing key keeps its place. *)
Fixpoint dict_set {V} (d : list (pystr * V)) (k : pystr) (v : V) : list (pystr * V) :=
  match d with
  | [] => [(k, v)]
  | (k', v') :: d' => if pystr_eqb k' k then (k', v) :: d' else (k', v') :: dict_set d' k v
  end.

(** [d.update(u)]. *)
Definition dict_update {V} (d u : list (pystr * V)) : list (pystr * V) :=
  fold_left (fun acc kv => dict_set acc (fst kv) (snd kv)) u d.

(** ** [struct]: native unsigned ints, four bytes each

    [struct.pack('I', x)] raises [struct.error] unless [0 <= x < 2^32];
    [struct.unpack] raises unless the buffer has exactly the format's size.
    Format ['III'] is three such fields with no padding between them.  The
    byte order is the machine's; it is taken to be little-endian. *)

Definition byte_of_Z (z : Z) : byte :=
  match Byte.of_N (Z.to_N (z mod 256)) with
  | Some b => b
  | None => x00
  end.

Definition Z_of_byte (b : byte) : Z := Z.of_N (Byte.to_N b).

Definition le32 (z : Z) : list byte :=
  [byte_of_Z z; byte_of_Z (Z.shiftr z 8); byte_of_Z (Z.shiftr z 16); byte_of_Z (Z.shiftr z 24)].

Definition struct_pack_I (z : Z) : result (list byte) :=
  if (0 <=? z) && (z <? 2 ^ 32) then Ok (le32 z)
  else Raise (StructError "argument out of range").

Definition struct_unpack_I (data : list byte) : result Z :=
  match data with
  | [b0; b1; b2; b3] =>
      Ok (Z.lor (Z_of_byte b0)
           (Z.lor (Z.shiftl (Z_of_byte b1) 8)
             (Z.lor (Z.shiftl (Z_of_byte b2) 16) (Z.shiftl (Z_of_byte b3) 24))))
  | _ => Raise (StructError "unpack requires a buffer of 4 bytes")
  end.

Definition struct_pack_III (a b c : Z) : result (list byte) :=
  ba ← struct_pack_I a;
  bb ← struct_pack_I b;
  bc ← struct_pack_I c;
  Ok (ba ++ bb ++ bc).

Definition struct_unpack_III (data : list byte) : result (Z * Z * Z) :=
  if bool_decide (length data = 12%nat) then
    a ← struct_unpack_I (take 4 data);
    b ← struct_unpack_I (take 4 (drop 4 data));
    c ← struct_unpack_I (take 4 (drop 8 data));
    Ok (a, b, c)
  else Raise (StructError "unpack requires a buffer of 12 bytes").

(** [seq[lo:hi]] with Python's clipping of both bounds. *)
Definition slice_bound (len i : Z) : Z :=
  if i <? 0 then Z.max 0 (i + len) else Z.min i len.

Definition py_slice {A} (l : list A) (lo hi : Z) : list A :=
  let len := Z.of_nat (length l) in
  let lo' := slice_bound len lo in
  let hi' := slice_bound len hi in
  take (Z.to_nat (hi' - lo')) (drop (Z.to_nat lo') l).

(** ** [json.dumps(row).encode('utf-8')]

    [json] is the standard library's, modelled here with the defaults the
    source uses: separators [", "] and [": "], keys in insertion order, and
    [ensure_ascii], under which every character outside [' '..'~'] is written
    as an escape.  The text is therefore ASCII and [encode('utf-8')] maps each
    character to the byte of the same number, so the two calls are one
    function into bytes. *)

Definition bytes (s : string) : list byte := list_byte_of_string s.

Fixpoint uint_bytes (u : Decimal.uint) : list byte :=
  match u with
  | Decimal.Nil => []
  | Decimal.D0 r => x30 :: uint_bytes r
  | Decimal.D1 r => x31 :: uint_bytes r
  | Decimal.D2 r => x32 :: uint_bytes r
  | Decimal.D3 r => x33 :: uint_bytes r
  | Decimal.D4 r => x34 :: uint_bytes r
  | Decimal.D5 r => x35 :: uint_bytes r
  | Decimal.D6 r => x36 :: uint_bytes r
  | Decimal.D7 r => x37 :: uint_bytes r
  | Decimal.D8 r => x38 :: uint_bytes r
  | Decimal.D9 r => x39 :: uint_bytes r
  end.

(** [int.__repr__]. *)
Definition int_repr (z : Z) : list byte :=
  match Z.to_int z with
  | Decimal.Pos u => uint_bytes u
  | Decimal.Neg u => x2d :: uint_bytes u
  end.

Definition hex_digit (n : N) : byte :=
  byte_of_Z (Z.of_N (if (n <? 10)%N then 48 + n else 87 + n)%N).

Definition hex4 (n : N) : list byte :=
  [hex_digit (N.shiftr n 12 mod 16); hex_digit (N.shiftr n 8 mod 16);
   hex_digit (N.shiftr n 4 mod 16); hex_digit (n mod 16)]%N.

(** One character of [encode_basestring_ascii]. *)
Definition escape_char (c : N) : list byte :=
  (if c =? 34 then [x5c; x22]
   else if c =? 92 then [x5c; x5c]
   else if c =? 10 then [x5c; x6e]
   else if c =? 13 then [x5c; x72]
   else if c =? 9 then [x5c; x74]
   else if c =? 12 then [x5c; x66]
   else if c =? 8 then [x5c; x62]
   else if (32 <=? c) && (c <=? 126) then [byte_of_Z (Z.of_N c)]
   else if c <? 65536 then [x5c; x75] ++ hex4 c
   else
     let n := c - 65536 in
     [x5c; x75] ++ hex4 (N.lor 55296 (N.land (N.shiftr n 10) 1023)) ++
     [x5c; x75] ++ hex4 (N.lor 56320 (N.land n 1023)))%N.

Definition encode_basestring_ascii (s : pystr) : list byte :=
  [x22] ++ concat (map escape_char s) ++ [x22].

Definition float_json (repr : string) : list byte :=
  if String.eqb repr "nan" then bytes "NaN"
  else if String.eqb repr "inf" then bytes "Infinity"
  else if String.eqb repr "-inf" then bytes "-Infinity"
  else bytes repr.

Fixpoint json_dumps (v : pyvalue) : list byte :=
  match v with
  | PyNone => bytes "null"
  | PyBool true => bytes "true"
  | PyBool false => bytes "false"
  | PyInt z => int_repr z
  | PyFloat r => float_json r
  | PyStr s => encode_basestring_ascii s
  | PyList [] => bytes "[]"
  | PyList (x :: rest) =>
      bytes "[" ++ json_dumps x ++
      (fix more (l : list pyvalue) : list byte :=
         match l with
         | [] => []
         | y :: l' => bytes ", " ++ json_dumps y ++ more l'
         end) rest ++ bytes "]"
  | PyDict [] => bytes "{}"
  | PyDict ((k, x) :: rest) =>
      bytes "{" ++ encode_basestring_ascii k ++ bytes ": " ++ json_dumps x ++
      (fix more (l : list (pystr * pyvalue)) : list byte :=
         match l with
         | [] => []
         | (k', y) :: l' =>
             bytes ", " ++ encode_basestring_ascii k' ++ bytes ": " ++ json_dumps y ++ more l'
         end) rest ++ bytes "}"
  end.

(** ** [bytes.decode('utf-8')], strict *)

Definition is_cont (b : N) : bool := ((128 <=? b) && (b <=? 191))%N.

Definition within (lo hi b : N) : bool := ((lo <=? b) && (b <=? hi))%N.

Fixpoint utf8_decode_N (bs : list N) : result pystr :=
  match bs with
  | [] => Ok []
  | b0 :: r0 =>
      if (b0 <? 128)%N then s ← utf8_decode_N r0; Ok (b0 :: s)
      else if within 194 223 b0 then
        match r0 with
        | b1 :: r1 =>
            if is_cont b1
            then s ← utf8_decode_N r1; Ok (((b0 - 192) * 64 + (b1 - 128))%N :: s)
            else Raise UnicodeDecodeError
        | _ => Raise UnicodeDecodeError
        end
      else if within 224 239 b0 then
        match r0 with
        | b1 :: b2 :: r2 =>
            let lo := (if b0 =? 224 then 160 else 128)%N in
            let hi := (if b0 =? 237 then 159 else 191)%N in
            if within lo hi b1 && is_cont b2
            then s ← utf8_decode_N r2;
                 Ok ((((b0 - 224) * 64 + (b1 - 128)) * 64 + (b2 - 128))%N :: s)
            else Raise UnicodeDecodeError
        | _ => Raise UnicodeDecodeError
        end
      else if within 240 244 b0 then
        match r0 with
        | b1 :: b2 :: b3 :: r3 =>
            let lo := (if b0 =? 240 then 144 else 128)%N in
            let hi := (if b0 =? 244 then 143 else 191)%N in
            if within lo hi b1 && is_cont b2 && is_cont b3
            then s ← utf8_decode_N r3;
                 Ok (((((b0 - 240) * 64 + (b1 - 128)) * 64 + (b2 - 128)) * 64 + (b3 - 128))%N :: s)
            else Raise UnicodeDecodeError
        | _ => Raise UnicodeDecodeError
        end
      else Raise UnicodeDecodeError
  end.

Definition utf8_decode (data : list byte) : result pystr :=
  utf8_decode_N (map Byte.to_N data).

(** ** [json.loads]

    The scanner of the standard library: a value, surrounded by optional
    whitespace, and nothing else.  The recursion is on a fuel of two units for
    every character, which the scanner cannot use up ([json_loads_fuel]
    below); the interpreter's own recursion limit, and its limit on the digits
    of an [int], are not modelled.  A number with a fraction or an exponent
    becomes a [PyFloat] carrying the literal. *)

Definition is_ws (c : N) : bool := ((c =? 32) || (c =? 9) || (c =? 10) || (c =? 13))%N.

Fixpoint skip_ws (s : pystr) : pystr :=
  match s with
  | c :: r => if is_ws c then skip_ws r else s
  | [] => []
  end.

Definition is_digit (c : N) : bool := within 48 57 c.

Fixpoint span_digits (s : pystr) : pystr * pystr :=
  match s with
  | c :: r => if is_digit c then let '(ds, r') := span_digits r in (c :: ds, r') else ([], s)
  | [] => ([], [])
  end.

Definition hex_val (c : N) : option N :=
  if within 48 57 c then Some (c - 48)%N
  else if within 97 102 c then Some (c - 87)%N
  else if within 65 70 c then Some (c - 55)%N
  else None.

Definition hex4_val (a b c d : N) : option N :=
  x ← hex_val a; y ← hex_val b; z ← hex_val c; w ← hex_val d;
  Some (((x * 16 + y) * 16 + z) * 16 + w)%N.

Definition simple_escape (e : N) : option N :=
  (if e =? 34 then Some 34 else if e =? 92 then Some 92 else if e =? 47 then Some 47
   else if e =? 98 then Some 8 else if e =? 102 then Some 12 else if e =? 110 then Some 10
   else if e =? 114 then Some 13 else if e =? 116 then Some 9 else None)%N.

(** The text after an opening quote, up to the closing one; [acc] holds the
    characters read so far, last first. *)
Fixpoint scanstring (s : pystr) (acc : pystr) : result (pystr * pystr) :=
  match s with
  | [] => Raise (JSONDecodeError "Unterminated string starting at")
  | c :: r =>
      if (c =? 34)%N then Ok (rev acc, r)
      else if (c =? 92)%N then
        match r with
        | [] => Raise (JSONDecodeError "Unterminated string starting at")
        | e :: r1 =>
            if (e =? 117)%N then
              match r1 with
              | h1 :: h2 :: h3 :: h4 :: r2 =>
                  match hex4_val h1 h2 h3 h4 with
                  | None => Raise (JSONDecodeError "Invalid \uXXXX escape")
                  | Some u =>
                      if within 55296 56319 u then
                        match r2 with
                        | b :: v :: g1 :: g2 :: g3 :: g4 :: (_ :: _) as r3 =>
                            if ((b =? 92) && (v =? 117))%N then
                              match hex4_val g1 g2 g3 g4 with
                              | None => Raise (JSONDecodeError "Invalid \uXXXX escape")
                              | Some u2 =>
                                  if within 56320 57343 u2
                                  then scanstring r3
                                         ((65536 + (u - 55296) * 1024 + (u2 - 56320))%N :: acc)
                                  else scanstring r2 (u :: acc)
                              end
                            else scanstring r2 (u :: acc)
                        | _ => scanstring r2 (u :: acc)
                        end
                      else scanstring r2 (u :: acc)
                  end
              | _ => Raise (JSONDecodeError "Invalid \uXXXX escape")
              end
            else
              match simple_escape e with
              | Some x => scanstring r1 (x :: acc)
              | None => Raise (JSONDecodeError "Invalid \escape")
              end
        end
      else if (c <? 32)%N then Raise (JSONDecodeError "Invalid control character at")
      else scanstring r (c :: acc)
  end.

Fixpoint strip_prefix (lit s : pystr) : option pystr :=
  match lit, s with
  | [], _ => Some s
  | a :: lit', b :: s' => if (a =? b)%N then strip_prefix lit' s' else None
  | _ :: _, [] => None
  end.

Definition digits_value (ds : pystr) : Z :=
  fold_left (fun acc d => 10 * acc + Z.of_N (d - 48)) ds 0.

Definition text_of (s : pystr) : string :=
  string_of_list_byte (map (fun c => byte_of_Z (Z.of_N c)) s).

(** The longest number at the head of [s], in four parts, each returned with
    what follows it: an optional minus sign; either 0 or a digit other than 0
    followed by digits; optionally, a point and at least one digit;
    optionally, e or E, an optional sign and at least one digit. *)
Definition scan_sign (s : pystr) : pystr * pystr :=
  match s with
  | c :: r => if (c =? 45)%N then ([c], r) else ([], s)
  | [] => ([], s)
  end.

Definition scan_int (s : pystr) : option (pystr * pystr) :=
  match s with
  | d :: r =>
      if negb (is_digit d) then None
      else if (d =? 48)%N then Some ([d], r)
      else let '(ds, r') := span_digits r in Some (d :: ds, r')
  | [] => None
  end.

Definition scan_frac (s : pystr) : pystr * pystr :=
  match s with
  | c :: r =>
      if (c =? 46)%N then
        match span_digits r with
        | ([], _) => ([], s)
        | (fs, r') => (c :: fs, r')
        end
      else ([], s)
  | [] => ([], s)
  end.

Definition scan_exp_sign (s : pystr) : pystr * pystr :=
  match s with
  | g :: t => if ((g =? 45) || (g =? 43))%N then ([g], t) else ([], s)
  | [] => ([], s)
  end.

Definition scan_exp (s : pystr) : pystr * pystr :=
  match s with
  | c :: r =>
      if ((c =? 101) || (c =? 69))%N then
        let '(sgn, r') := scan_exp_sign r in
        match span_digits r' with
        | ([], _) => ([], s)
        | (es, r'') => (c :: sgn ++ es, r'')
        end
      else ([], s)
  | [] => ([], s)
  end.

(** A number without fraction and exponent is an [int], any other a [float]. *)
Definition match_number (s : pystr) : option (pyvalue * pystr) :=
  let '(sign, s1) := scan_sign s in
  match scan_int s1 with
  | None => None
  | Some (int_part, r1) =>
      let '(frac, r2) := scan_frac r1 in
      let '(exp, r3) := scan_exp r2 in
      match frac, exp with
      | [], [] =>
          Some (PyInt (match sign with
                       | [] => digits_value int_part
                       | _ :: _ => - digits_value int_part
                       end), r3)
      | _, _ => Some (PyFloat (text_of (sign ++ int_part ++ frac ++ exp)), r3)
      end
  end.

Definition scan_literal (s : pystr) : result (pyvalue * pystr) :=
  match strip_prefix (str "null") s with Some r => Ok (PyNone, r) | None =>
  match strip_prefix (str "true") s with Some r => Ok (PyBool true, r) | None =>
  match strip_prefix (str "false") s with Some r => Ok (PyBool false, r) | None =>
  match strip_prefix (str "NaN") s with Some r => Ok (PyFloat "nan", r) | None =>
  match strip_prefix (str "Infinity") s with Some r => Ok (PyFloat "inf", r) | None =>
  match strip_prefix (str "-Infinity") s with Some r => Ok (PyFloat "-inf", r) | None =>
  match match_number s with Some vr => Ok vr | None =>
  Raise (JSONDecodeError "Expecting value")
  end end end end end end end.

Fixpoint scan_once (fuel : nat) (s : pystr) : result (pyvalue * pystr) :=
  match fuel with
  | O => Raise RecursionError
  | S fuel =>
      match s with
      | [] => Raise (JSONDecodeError "Expecting value")
      | c :: r =>
          if (c =? 34)%N then
            '(t, r') ← scanstring r []; Ok (PyStr t, r')
          else if (c =? 123)%N then
            match skip_ws r with
            | c' :: r' =>
                if (c' =? 125)%N then Ok (PyDict [], r')
                else '(d, r'') ← parse_members fuel (c' :: r') []; Ok (PyDict d, r'')
            | [] => Raise (JSONDecodeError "Expecting property name enclosed in double quotes")
            end
          else if (c =? 91)%N then
            match skip_ws r with
            | c' :: r' =>
                if (c' =? 93)%N then Ok (PyList [], r')
                else '(l, r'') ← parse_items fuel (c' :: r') []; Ok (PyList l, r'')
            | [] => Raise (JSONDecodeError "Expecting value")
            end
          else scan_literal s
      end
  end
with parse_members (fuel : nat) (s : pystr) (acc : list (pystr * pyvalue))
  : result (list (pystr * pyvalue) * pystr) :=
  match fuel with
  | O => Raise RecursionError
  | S fuel =>
      match s with
      | c :: r =>
          if (c =? 34)%N then
            '(k, r1) ← scanstring r [];
            match skip_ws r1 with
            | c2 :: r2 =>
                if (c2 =? 58)%N then
                  '(v, r3) ← scan_once fuel (skip_ws r2);
                  let acc := dict_set acc k v in
                  match skip_ws r3 with
                  | c3 :: r4 =>
                      if (c3 =? 125)%N then Ok (acc, r4)
                      else if (c3 =? 44)%N then parse_members fuel (skip_ws r4) acc
                      else Raise (JSONDecodeError "Expecting ',' delimiter")
                  | [] => Raise (JSONDecodeError "Expecting ',' delimiter")
                  end
                else Raise (JSONDecodeError "Expecting ':' delimiter")
            | [] => Raise (JSONDecodeError "Expecting ':' delimiter")
            end
          else Raise (JSONDecodeError "Expecting property name enclosed in double quotes")
      | [] => Raise (JSONDecodeError "Expecting property name enclosed in double quotes")
      end
  end
with parse_items (fuel : nat) (s : pystr) (acc : list pyvalue)
  : result (list pyvalue * pystr) :=
  match fuel with
  | O => Raise RecursionError
  | S fuel =>
      '(v, r1) ← scan_once fuel s;
      match skip_ws r1 with
      | c :: r2 =>
          if (c =? 93)%N then Ok (rev (v :: acc), r2)
          else if (c =? 44)%N then parse_items fuel (skip_ws r2) (v :: acc)
          else Raise (JSONDecodeError "Expecting ',' delimiter")
      | [] => Raise (JSONDecodeError "Expecting ',' delimiter")
      end
  end.

Definition starts_with_bom (s : pystr) : bool :=
  match s with
  | c :: _ => (c =? 65279)%N
  | [] => false
  end.

Definition json_loads (s : pystr) : result pyvalue :=
  if starts_with_bom s
  then Raise (JSONDecodeError "Unexpected UTF-8 BOM (decode using utf-8-sig)")
  else
    '(v, r) ← scan_once (2 * length s + 2) (skip_ws s);
    match skip_ws r with
    | [] => Ok v
    | _ :: _ => Raise (JSONDecodeError "Extra data")
    end.

(** [r] is what is left of [s] once a prefix without the character NUL has
    been read. *)
Definition reads (s r : pystr) : Prop :=
  exists pre, s = pre ++ r /\ Forall (fun c => c <> 0%N) pre.

(** ** page.py *)

Definition PAGE_SIZE : Z := 4096.
Definition HEADER_SIZE : Z := 12.

(** [len(x)]. *)
Definition len {A} (l : list A) : Z := Z.of_nat (length l).

Module Page.

Record t : Type := mk {
  page_id : Z;
  num_rows : Z;
  free_space_offset : Z;
  rows : list pyvalue
}.

Definition __init__ (page_id : Z) : t :=
  {| page_id := page_id; num_rows := 0; free_space_offset := HEADER_SIZE; rows := [] |}.

Definition can_fit (self : t) (row_data : pyvalue) : bool :=
  let serialized := json_dumps row_data in
  let row_size := len serialized + 4 in
  let available_space := PAGE_SIZE - free_space_offset self in
  available_space >=? row_size.

(** Mutating methods return their result and the page after the call. *)
Definition insert_row (self : t) (row_data : pyvalue) : bool * t :=
  if negb (can_fit self row_data) then (false, self)
  else
    let serialized := json_dumps row_data in
    (true, {| page_id := page_id self;
              num_rows := num_rows self + 1;
              free_space_offset := free_space_offset self + (len serialized + 4);
              rows := rows self ++ [row_data] |}).

(** [None] is the value [PyNone], whether the slot is out of range or holds it. *)
Definition get_row (self : t) (row_index : Z) : pyvalue :=
  if (0 <=? row_index) && (row_index <? len (rows self))
  then rows self !!! Z.to_nat row_index
  else PyNone.

Definition used_space (rs : list pyvalue) : Z :=
  fold_left (fun used row => used + (len (json_dumps row) + 4)) rs HEADER_SIZE.

Definition _recalculate_free_space (self : t) : t :=
  {| page_id := page_id self; num_rows := num_rows self;
     free_space_offset := used_space (rows self); rows := rows self |}.

Definition update_row (self : t) (row_index : Z) (new_data : pyvalue) : bool * t :=
  if (0 <=? row_index) && (row_index <? len (rows self)) then
    let old_size := len (json_dumps (rows self !!! Z.to_nat row_index)) in
    let new_size := len (json_dumps new_data) in
    if (new_size <=? old_size) || can_fit self new_data then
      (true, _recalculate_free_space
               {| page_id := page_id self; num_rows := num_rows self;
                  free_space_offset := free_space_offset self;
                  rows := <[Z.to_nat row_index := new_data]> (rows self) |})
    else (false, self)
  else (false, self).

Definition delete_row (self : t) (row_index : Z) : bool * t :=
  if (0 <=? row_index) && (row_index <? len (rows self)) then
    (true, _recalculate_free_space
             {| page_id := page_id self; num_rows := num_rows self - 1;
                free_space_offset := free_space_offset self;
                rows := delete (Z.to_nat row_index) (rows self) |})
  else (false, self).

(** The loop of [serialize]: [rows_data] grows by a length prefix and a row. *)
Fixpoint serialize_rows (rs : list pyvalue) (rows_data : list byte) : result (list byte) :=
  match rs with
  | [] => Ok rows_data
  | row :: rest =>
      let row_json := json_dumps row in
      let row_length := len row_json in
      prefix ← struct_pack_I row_length;
      serialize_rows rest (rows_data ++ prefix ++ row_json)
  end.

Definition serialize (self : t) : result (list byte) :=
  header ← struct_pack_III (page_id self) (num_rows self) (free_space_offset self);
  rows_data ← serialize_rows (rows self) [];
  let page_data := header ++ rows_data in
  let padding := PAGE_SIZE - len page_data in
  Ok (page_data ++ replicate (Z.to_nat padding) x00).

(** The loop of [deserialize], [n] rounds from [offset]; the text of a row is
    cut at [offset + 4 + row_length], four bytes past its end. *)
Fixpoint deserialize_rows (n : nat) (data : list byte) (offset : Z) (rs : list pyvalue)
  : result (list pyvalue) :=
  match n with
  | O => Ok rs
  | S n' =>
      row_length ← struct_unpack_I (py_slice data offset (offset + 4));
      let offset := offset + 4 in
      row_json ← utf8_decode (py_slice data offset (offset + 4 + row_length));
      let offset := offset + row_length in
      row ← json_loads row_json;
      deserialize_rows n' data offset (rs ++ [row])
  end.

Definition deserialize (data : list byte) : result t :=
  '(page_id, num_rows, free_space_offset) ← struct_unpack_III (py_slice data 0 HEADER_SIZE);
  rs ← deserialize_rows (Z.to_nat num_rows) data HEADER_SIZE [];
  Ok {| page_id := page_id; num_rows := num_rows;
        free_space_offset := free_space_offset; rows := rs |}.

(** The bytes the rows take on the page: each row and its length prefix. *)
Definition rows_size (rs : list pyvalue) : Z :=
  foldr (fun row acc => len (json_dumps row) + 4 + acc) 0 rs.

(** The two halves of the space accounting, as one predicate on pages. *)
Definition accounted (p : t) : Prop :=
  free_space_offset p = HEADER_SIZE + rows_size (rows p)
  /\ free_space_offset p <= PAGE_SIZE.

(** The pages a program can hold: a new page, changed by calls that succeeded. *)
Inductive reachable : t -> Prop :=
| reachable_new page_id :
    reachable (__init__ page_id)
| reachable_insert self row_data self' :
    reachable self -> insert_row self row_data = (true, self') -> reachable self'
| reachable_update self row_index new_data self' :
    reachable self -> update_row self row_index new_data = (true, self') -> reachable self'
| reachable_delete self row_index self' :
    reachable self -> delete_row self row_index = (true, self') -> reachable self'.

End Page.

(** ** file_manager.py

    The disk is a finite map from paths to the contents of regular files;
    directories, permissions and device errors are not modelled.  Methods take
    the disk and, when they write, return it. *)

Abbreviation disk := (gmap (list N) (list byte)).

Module FileManager.

Record t : Type := mk { data_dir : pystr }.

(** [os.path.join(a, b)] on POSIX. *)
Definition os_path_join (a b : pystr) : pystr :=
  if match b with c :: _ => (c =? 47)%N | [] => false end then b
  else
    match last a with
    | None => b
    | Some c => if (c =? 47)%N then a ++ b else a ++ [47%N] ++ b
    end.

Definition _get_file_path (self : t) (table_name : pystr) : pystr :=
  os_path_join (data_dir self) table_name.

Definition table_exists (self : t) (fs : disk) (table_name : pystr) : bool :=
  bool_decide (is_Some (fs !! _get_file_path self table_name)).

Definition create_table_file (self : t) (fs : disk) (table_name : pystr) : bool * disk :=
  let file_path := _get_file_path self table_name in
  if bool_decide (is_Some (fs !! file_path)) then (false, fs)
  else (true, <[file_path := []]> fs).


(** [f.seek(offset); f.write(data)]: a gap past the end reads as zeros. *)
Definition write_at (content : list byte) (offset : Z) (data : list byte) : list byte :=
  let n := Z.to_nat offset in
  take n (content ++ replicate (n - length content) x00) ++ data
  ++ drop (n + length data) content.

(** [f.seek(offset)] from the start of the file raises on a negative offset. *)
Definition f_seek (offset : Z) : result unit :=
  if offset <? 0 then Raise (OSError "[Errno 22] Invalid argument") else Ok ().

(** [f.read(n)] at [offset]. *)
Definition f_read (content : list byte) (offset n : Z) : list byte :=
  take (Z.to_nat n) (drop (Z.to_nat offset) content).

Definition write_page (self : t) (fs : disk) (table_name : pystr) (page : Page.t)
  : bool * disk :=
  let file_path := _get_file_path self table_name in
  let offset := Page.page_id page * PAGE_SIZE in
  (* mode 'r+b' keeps an existing file, mode 'wb' creates an empty one *)
  let '(content, fs) :=
    match fs !! file_path with
    | Some content => (content, fs)
    | None => ([], <[file_path := []]> fs)
    end in
  let body : result (list byte) :=
    _ ← f_seek offset;
    data ← Page.serialize page;
    Ok (write_at content offset data) in
  match body with
  | Ok content' => (true, <[file_path := content']> fs)
  | Raise _ => (false, fs)        (* except Exception *)
  end.

Definition read_page (self : t) (fs : disk) (table_name : pystr) (page_id : Z)
  : option Page.t :=
  let file_path := _get_file_path self table_name in
  match fs !! file_path with
  | None => None
  | Some content =>
      let body : result (option Page.t) :=
        let offset := page_id * PAGE_SIZE in
        let file_size := len content in
        if offset + PAGE_SIZE >? file_size then Ok None
        else
          _ ← f_seek offset;
          let page_data := f_read content offset PAGE_SIZE in
          if len page_data <? PAGE_SIZE then Ok None
          else page ← Page.deserialize page_data; Ok (Some page) in
      match body with
      | Ok r => r
      | Raise _ => None           (* except Exception *)
      end
  end.

Definition get_num_pages (self : t) (fs : disk) (table_name : pystr) : Z :=
  let file_path := _get_file_path self table_name in
  match fs !! file_path with
  | None => 0
  | Some content => len content `div` PAGE_SIZE
  end.

(** The pages the generator yields, in order.  Nothing writes to the disk
    while a caller in this repository iterates, so the list is the iteration. *)
Definition scan_all_pages (self : t) (fs : disk) (table_name : pystr) : list Page.t :=
  let num_pages := get_num_pages self fs table_name in
  omap (fun page_id =>
          match read_page self fs table_name page_id with
          | Some page => if Page.num_rows page >? 0 then Some page else None
          | None => None
          end)
       (seqZ 0 num_pages).

End FileManager.

(** ** table.py: Column *)

Module Column.

Record t : Type := mk {
  name : pystr;
  data_type : pystr;
  primary_key : bool;
  unique : bool;
  nullable : bool
}.

Definition VALID_TYPES : list pystr :=
  [str "INTEGER"; str "TEXT"; str "REAL"; str "BOOLEAN"].

Definition __init__ (name data_type : pystr) (primary_key unique nullable : bool) : result t :=
  let self := {| name := name; data_type := data_type; primary_key := primary_key;
                 unique := unique;
                 nullable := if negb primary_key then nullable else false |} in
  if negb (bool_decide (data_type ∈ VALID_TYPES))
  then Raise (ValueError "Invalid data type")
  else Ok self.

(** [isinstance(value, int)]: [bool] is a subclass of [int]. *)
Definition isinstance_int (value : pyvalue) : bool :=
  match value with PyBool _ | PyInt _ => true | _ => false end.

Definition isinstance_str (value : pyvalue) : bool :=
  match value with PyStr _ => true | _ => false end.

Definition isinstance_float (value : pyvalue) : bool :=
  match value with PyFloat _ => true | _ => false end.

Definition isinstance_bool (value : pyvalue) : bool :=
  match value with PyBool _ => true | _ => false end.

Definition validate_value (self : t) (value : pyvalue) : bool :=
  match value with
  | PyNone => nullable self
  | _ =>
      if pystr_eqb (data_type self) (str "INTEGER") then isinstance_int value
      else if pystr_eqb (data_type self) (str "TEXT") then isinstance_str value
      else if pystr_eqb (data_type self) (str "REAL")
      then isinstance_int value || isinstance_float value
      else if pystr_eqb (data_type self) (str "BOOLEAN") then isinstance_bool value
      else false
  end.

End Column.

(** ** Dictionaries keyed by values, sets of values, and rows as objects

    Keys are compared as Python compares hashable scalars: [True] and [1] are
    one key.  On floats the comparison is that of their texts, and a float is
    never the key an int is. *)

Definition hashable (v : pyvalue) : bool :=
  match v with PyList _ | PyDict _ => false | _ => true end.

Definition key_eqb (a b : pyvalue) : bool :=
  match a, b with
  | PyNone, PyNone => true
  | PyBool x, PyBool y => Bool.eqb x y
  | PyBool x, PyInt z | PyInt z, PyBool x => z =? (if x then 1 else 0)
  | PyInt x, PyInt y => x =? y
  | PyFloat x, PyFloat y => String.eqb x y
  | PyStr x, PyStr y => pystr_eqb x y
  | _, _ => false
  end.

Definition unhashable {A} : result A := Raise (TypeError "unhashable type").

(** [index.get(k)]. *)
Definition index_get {V} (index : list (pyvalue * V)) (k : pyvalue) : result (option V) :=
  if hashable k then Ok (snd <$> List.find (fun kv => key_eqb (fst kv) k) index)
  else unhashable.

(** [index[k] = v]. *)
Fixpoint index_put {V} (index : list (pyvalue * V)) (k : pyvalue) (v : V) : list (pyvalue * V) :=
  match index with
  | [] => [(k, v)]
  | (k', v') :: rest =>
      if key_eqb k' k then (k', v) :: rest else (k', v') :: index_put rest k v
  end.

Definition index_set {V} (index : list (pyvalue * V)) (k : pyvalue) (v : V)
  : result (list (pyvalue * V)) :=
  if hashable k then Ok (index_put index k v) else unhashable.

(** [del index[k]]. *)
Definition index_del {V} (index : list (pyvalue * V)) (k : pyvalue)
  : result (list (pyvalue * V)) :=
  if hashable k then
    if existsb (fun kv => key_eqb (fst kv) k) index
    then Ok (List.filter (fun kv => negb (key_eqb (fst kv) k)) index)
    else Raise KeyError
  else unhashable.

(** [s.add(v)] and [s.discard(v)]. *)
Definition set_add (s : list pyvalue) (v : pyvalue) : result (list pyvalue) :=
  if hashable v then Ok (if existsb (key_eqb v) s then s else s ++ [v]) else unhashable.

Definition set_discard (s : list pyvalue) (v : pyvalue) : result (list pyvalue) :=
  if hashable v then Ok (List.filter (fun x => negb (key_eqb v x)) s) else unhashable.

(** [d[k]] on a dictionary with [str] keys. *)
Definition dict_getitem {V} (d : list (pystr * V)) (k : pystr) : result V :=
  match dict_get d k with
  | Some v => Ok v
  | None => Raise KeyError
  end.

(** [row[col_name]]. *)
Definition py_getitem (row : pyvalue) (col_name : pystr) : result pyvalue :=
  match row with
  | PyDict d => dict_getitem d col_name
  | PyList _ => Raise (TypeError "list indices must be integers or slices, not str")
  | PyStr _ => Raise (TypeError "string indices must be integers, not 'str'")
  | _ => Raise (TypeError "object is not subscriptable")
  end.

Fixpoint is_prefix (a b : pystr) : bool :=
  match a, b with
  | [], _ => true
  | x :: a', y :: b' => (x =? y)%N && is_prefix a' b'
  | _ :: _, [] => false
  end.

Fixpoint is_substring (a b : pystr) : bool :=
  is_prefix a b || match b with [] => false | _ :: b' => is_substring a b' end.

(** [col_name in container]. *)
Definition py_contains (col_name : pystr) (container : pyvalue) : result bool :=
  match container with
  | PyDict d => Ok (bool_decide (is_Some (dict_get d col_name)))
  | PyList l =>
      Ok (existsb (fun x => match x with PyStr s => pystr_eqb s col_name | _ => false end) l)
  | PyStr s => Ok (is_substring col_name s)
  | _ => Raise (TypeError "argument is not iterable")
  end.

Definition is_None (v : pyvalue) : bool :=
  match v with PyNone => true | _ => false end.

(** [old_row.copy()]: rows are values here, so a copy is the row itself. *)
Definition py_copy (v : pyvalue) : result pyvalue :=
  match v with
  | PyDict _ | PyList _ => Ok v
  | _ => Raise (AttributeError "object" "copy")
  end.

(** [new_row.update(updates)]. *)
Definition py_update (v : pyvalue) (updates : list (pystr * pyvalue)) : result pyvalue :=
  match v with
  | PyDict d => Ok (PyDict (dict_update d updates))
  | _ => Raise (AttributeError "object" "update")
  end.

(** ** table.py: Table *)

Module Table.

(** The object.  The last three attributes are read by the methods below and
    assigned by none of them; [file_manger] is the name [__init__] uses. *)
Record t : Type := mk {
  name : pystr;
  columns : list (pystr * Column.t);
  column_order : list pystr;
  file_manger : FileManager.t;
  primary_key_cols : list pystr;
  unique_cols : list pystr;
  next_page_id : Z;
  primary_key_index : option (list (pyvalue * (Z * Z)));
  unique_indexes : option (list (pystr * list pyvalue));
  file_manager : option FileManager.t
}.

Definition set_next_page_id (v : Z) (self : t) : t :=
  mk (name self) (columns self) (column_order self) (file_manger self)
     (primary_key_cols self) (unique_cols self) v
     (primary_key_index self) (unique_indexes self) (file_manager self).

Definition set_primary_key_index (v : list (pyvalue * (Z * Z))) (self : t) : t :=
  mk (name self) (columns self) (column_order self) (file_manger self)
     (primary_key_cols self) (unique_cols self) (next_page_id self)
     (Some v) (unique_indexes self) (file_manager self).

Definition set_unique_indexes (v : list (pystr * list pyvalue)) (self : t) : t :=
  mk (name self) (columns self) (column_order self) (file_manger self)
     (primary_key_cols self) (unique_cols self) (next_page_id self)
     (primary_key_index self) (Some v) (file_manager self).

(** The methods [class Table] defines, in source order. *)
Definition methods : list string :=
  ["__init__"; "_load_indexes"; "select_all"; "select_by_primary_key";
   "delete_by_primary_key"; "update_by_primary_key"; "__repr__"]%string.

(** A method runs on the object and the disk and leaves both, with its result
    or the exception it raised. *)
Definition state : Type := t * disk.
Definition M (A : Type) : Type := state -> result A * state.

#[global] Instance M_ret : MRet M := fun _ a s => (Ok a, s).
#[global] Instance M_bind : MBind M := fun _ _ k m s =>
  match m s with
  | (Ok a, s') => k a s'
  | (Raise e, s') => (Raise e, s')
  end.

Definition raise {A} (e : exn) : M A := fun s => (Raise e, s).
Definition lift {A} (r : result A) : M A := fun s => (r, s).
Definition get_self : M t := fun s => (Ok (fst s), s).
Definition set_self (self : t) : M unit := fun s => (Ok (), (self, snd s)).
Definition get_disk : M disk := fun s => (Ok (snd s), s).
Definition set_disk (fs : disk) : M unit := fun s => (Ok (), (fst s, fs)).

(** [self.attr] for an attribute that may not be there. *)
Definition getattr {A} (attr : string) (field : t -> option A) : M A :=
  self ← get_self;
  match field self with
  | Some a => mret a
  | None => raise (AttributeError "Table" attr)
  end.

(** [self.attr(...)] for a name that is no method of the class and no
    attribute of the object: the lookup raises before any argument is used. *)
Definition call_undefined {A} (attr : string) : M A :=
  raise (AttributeError "Table" attr).

(** A name read in a function that binds it nowhere, and no global either. *)
Definition undefined_name {A} (name : string) : M A :=
  raise (NameError name).

Fixpoint for_each {A} (l : list A) (body : A -> M unit) : M unit :=
  match l with
  | [] => mret ()
  | x :: l' => _ ← body x; for_each l' body
  end.

(** A loop whose body may [return]: [Some r] leaves the function with [r]. *)
Fixpoint for_each_return {A R} (l : list A) (body : A -> M (option R)) : M (option R) :=
  match l with
  | [] => mret None
  | x :: l' =>
      r ← body x;
      match r with
      | Some v => mret (Some v)
      | None => for_each_return l' body
      end
  end.

(** [if cond: body] with nothing after it in its block. *)
Definition when (cond : bool) (body : M unit) : M unit :=
  if cond then body else mret ().

Definition enumerate {A} (l : list A) : list (Z * A) :=
  imap (fun i x => (Z.of_nat i, x)) l.

(** [self._get_primary_key_value(row)], [self.validate_row(row)] and
    [table.insert_row(row)]: the class defines none of the three. *)
Definition _get_primary_key_value (row : pyvalue) : M pyvalue :=
  call_undefined "_get_primary_key_value".

Definition validate_row (row : pyvalue) : M (bool * option string) :=
  call_undefined "validate_row".

Definition insert_row (row : pyvalue) : M (bool * option string) :=
  call_undefined "insert_row".

(** [self.unique_indexes[col_name].discard(v)] and [....add(v)]; the argument
    [v] is evaluated after the set has been found. *)
Definition unique_discard (col_name : pystr) (v : result pyvalue) : M unit :=
  indexes ← getattr "unique_indexes" unique_indexes;
  values ← lift (dict_getitem indexes col_name);
  v ← lift v;
  values ← lift (set_discard values v);
  self ← get_self;
  set_self (set_unique_indexes (dict_set indexes col_name values) self).

Definition unique_add (col_name : pystr) (v : result pyvalue) : M unit :=
  indexes ← getattr "unique_indexes" unique_indexes;
  values ← lift (dict_getitem indexes col_name);
  v ← lift v;
  values ← lift (set_add values v);
  self ← get_self;
  set_self (set_unique_indexes (dict_set indexes col_name values) self).

Definition _load_indexes : M (option (bool * option string)) :=
  self ← get_self;
  fs ← get_disk;
  let pages := FileManager.scan_all_pages (file_manger self) fs (name self) in
  _ ← for_each pages (fun page =>
         self ← get_self;
         set_self (set_next_page_id (Z.max (next_page_id self) (Page.page_id page + 1)) self));
  (* the second loop is not inside the first: [page] is the last page the
     first loop saw, and is not bound when it saw none *)
  page ← lift (match last pages with
               | Some page => Ok page
               | None => Raise (UnboundLocalError "page")
               end);
  for_each_return (enumerate (Page.rows page)) (fun '(row_index, row) =>
    self ← get_self;
    _ ← when (negb (bool_decide (primary_key_cols self = []))) (
           pk_value ← _get_primary_key_value row;
           index ← getattr "primary_key_index" primary_key_index;
           index ← lift (index_set index pk_value (Page.page_id page, row_index));
           self ← get_self;
           set_self (set_primary_key_index index self));
    _ ← for_each (unique_cols self) (fun col_name =>
           self ← get_self;
           when (bool_decide (col_name ∈ unique_cols self))
                (unique_add col_name (py_getitem row col_name)));
    (* [return True, None] stands inside the loop over the rows *)
    mret (Some (true, None))).

Definition __init__ (name : pystr) (columns : list Column.t) (file_manager : FileManager.t)
    (fs : disk) : result t :=
  let self :=
    {| name := name;
       columns := fold_left (fun d col => dict_set d (Column.name col) col) columns [];
       column_order := map Column.name columns;
       file_manger := file_manager;
       primary_key_cols := map Column.name (List.filter Column.primary_key columns);
       unique_cols :=
         map Column.name
             (List.filter (fun col => Column.unique col || Column.primary_key col) columns);
       next_page_id := 0;
       primary_key_index := None;
       unique_indexes := None;
       file_manager := None |} in
  if FileManager.table_exists file_manager fs name then
    let '(r, (self, _)) := _load_indexes (self, fs) in
    _ ← r; Ok self
  else Ok self.

Definition select_all (self : t) (fs : disk) : list pyvalue :=
  concat (map Page.rows (FileManager.scan_all_pages (file_manger self) fs (name self))).

Definition select_by_primary_key (pk_value : pyvalue) : M pyvalue :=
  self ← get_self;
  fs ← get_disk;
  if bool_decide (primary_key_cols self = []) then mret PyNone
  else
    index ← getattr "primary_key_index" primary_key_index;
    location ← lift (index_get index pk_value);
    match location with
    | None => mret PyNone
    | Some (page_id, row_index) =>
        match FileManager.read_page (file_manger self) fs (name self) page_id with
        | None => mret PyNone
        | Some page => mret (Page.get_row page row_index)
        end
    end.

Definition delete_by_primary_key (pk_value : pyvalue) : M (bool * option string) :=
  self ← get_self;
  fs ← get_disk;
  if bool_decide (primary_key_cols self = []) then
    mret (false, Some "Table has no primary key"%string)
  else
    index ← getattr "primary_key_index" primary_key_index;
    location ← lift (index_get index pk_value);
    match location with
    | None => mret (false, Some "Row not found"%string)
    | Some (page_id, row_index) =>
        match FileManager.read_page (file_manger self) fs (name self) page_id with
        | None => mret (false, Some "page not found"%string)
        | Some page =>
            (* [if row is None:] reads a name the function never binds *)
            row ← undefined_name "row";
            if is_None row then mret (false, Some "Row not found in page"%string)
            else
              let '(ok, page) := Page.delete_row page row_index in
              if negb ok then mret (false, Some "Failed to delete row from page"%string)
              else
                let '(ok, fs) :=
                  FileManager.write_page (file_manger self) fs (name self) page in
                _ ← set_disk fs;
                if negb ok then mret (false, Some "Failed to write page"%string)
                else
                  index ← getattr "primary_key_index" primary_key_index;
                  index ← lift (index_del index pk_value);
                  self ← get_self;
                  _ ← set_self (set_primary_key_index index self);
                  _ ← for_each (unique_cols self) (fun col_name =>
                         (* [col_name in row[col_name] is not None] *)
                         v ← lift (py_getitem row col_name);
                         c ← lift (py_contains col_name v);
                         when (c && negb (is_None v))
                              (unique_discard col_name (py_getitem row col_name)));
                  mret (true, None)
        end
    end.

Definition update_by_primary_key (pk_value : pyvalue) (updates : list (pystr * pyvalue))
  : M (bool * option string) :=
  self ← get_self;
  fs ← get_disk;
  if bool_decide (primary_key_cols self = []) then
    mret (false, Some "Table has no primary key"%string)
  else
    index ← getattr "primary_key_index" primary_key_index;
    location ← lift (index_get index pk_value);
    match location with
    | None => mret (false, Some "Row not found"%string)
    | Some (page_id, row_index) =>
        (* [self.file_manager], not the [self.file_manger] of [__init__] *)
        fm ← getattr "file_manager" file_manager;
        match FileManager.read_page fm fs (name self) page_id with
        | None => mret (false, Some "Page not found"%string)
        | Some page =>
            let old_row := Page.get_row page row_index in
            if is_None old_row then mret (false, Some "Row not found in page"%string)
            else
              new_row ← lift (py_copy old_row);
              new_row ← lift (py_update new_row updates);
              '(valid, error) ← validate_row new_row;
              if negb valid then mret (false, error)
              else
                let '(ok, page) := Page.update_row page row_index new_row in
                if negb ok then mret (false, Some "Failed to update row in page"%string)
                else
                  fm ← getattr "file_manager" file_manager;
                  let '(ok, fs) := FileManager.write_page fm fs (name self) page in
                  _ ← set_disk fs;
                  if negb ok then mret (false, Some "Failed to write page"%string)
                  else
                    _ ← for_each (unique_cols self) (fun col_name =>
                           pk_col ← lift (match primary_key_cols self with
                                          | c :: _ => Ok c
                                          | [] => Raise IndexError
                                          end);
                           when (negb (pystr_eqb col_name pk_col)) (
                             in_old ← lift (py_contains col_name old_row);
                             _ ← when in_old (
                                   v ← lift (py_getitem old_row col_name);
                                   when (negb (is_None v))
                                        (unique_discard col_name (py_getitem old_row col_name)));
                             in_new ← lift (py_contains col_name new_row);
                             when in_new (
                               v ← lift (py_getitem new_row col_name);
                               when (negb (is_None v))
                                    (unique_add col_name (py_getitem new_row col_name)))));
                    mret (true, None)
        end
    end.

End Table.

(** ** What a method may leave of the object *)

(** Two states that differ in the index attributes of the object at most. *)
Definition same_but_indexes (s s' : Table.state) : Prop :=
  snd s' = snd s
  /\ Table.name (fst s') = Table.name (fst s)
  /\ Table.columns (fst s') = Table.columns (fst s)
  /\ Table.column_order (fst s') = Table.column_order (fst s)
  /\ Table.file_manger (fst s') = Table.file_manger (fst s)
  /\ Table.primary_key_cols (fst s') = Table.primary_key_cols (fst s)
  /\ Table.unique_cols (fst s') = Table.unique_cols (fst s)
  /\ Table.next_page_id (fst s') = Table.next_page_id (fst s)
  /\ Table.file_manager (fst s') = Table.file_manager (fst s).

(** A computation that assigns nothing but index attributes. *)
Definition assigns_indexes_only {A} (m : Table.M A) : Prop :=
  forall s, same_but_indexes s (snd (m s)).

(** ** Sample data *)

Module Sample.

(** [{"id": 1, "name": "Alice"}] *)
Definition alice : pyvalue :=
  PyDict [(str "id", PyInt 1); (str "name", PyStr (str "Alice"))].

(** [Page(0)] after [insert_row(alice)]. *)
Definition page_alice : Page.t := snd (Page.insert_row (Page.__init__ 0) alice).

(** [{"a": "xx...x"}] with [n] letters: [n + 9] bytes of JSON. *)
Definition wide (n : nat) : pyvalue := PyDict [(str "a", PyStr (replicate n 120%N))].

(** A page whose single row leaves ten bytes free. *)
Definition page_wide : Page.t := snd (Page.insert_row (Page.__init__ 0) (wide 4061)).

Definition fm : FileManager.t := FileManager.mk (str "data").

Definition users : pystr := str "users".

Definition id_column : Column.t := Column.mk (str "id") (str "INTEGER") true false false.
Definition name_column : Column.t := Column.mk (str "name") (str "TEXT") false false true.
Definition price_column : Column.t := Column.mk (str "price") (str "REAL") false false true.

(** What [Table("users", [id_column, name_column], fm)] builds when the file
    does not exist. *)
Definition users_table : Table.t :=
  {| Table.name := users;
     Table.columns := [(str "id", id_column); (str "name", name_column)];
     Table.column_order := [str "id"; str "name"];
     Table.file_manger := fm;
     Table.primary_key_cols := [str "id"];
     Table.unique_cols := [str "id"];
     Table.next_page_id := 0;
     Table.primary_key_index := None;
     Table.unique_indexes := None;
     Table.file_manager := None |}.

(** The same object after [table.primary_key_index = {1: (0, 0)}], assigned
    from outside the class. *)
Definition users_indexed : Table.t :=
  Table.set_primary_key_index [(PyInt 1, (0, 0))] users_table.

(** A disk whose only file is the table's, holding page 0 with no rows. *)
Definition disk_blank_page : disk :=
  snd (FileManager.write_page fm ∅ users (Page.__init__ 0)).

(** A disk whose only file is the table's, created empty. *)
Definition disk_empty_file : disk :=
  snd (FileManager.create_table_file fm ∅ users).

(** A row that fills a page to its last byte, and a table file of two such
    pages; the one kind of page with rows that [deserialize] accepts. *)
Definition filling (c : N) : pyvalue := PyDict [(str "a", PyStr (replicate 4071 c))].

Definition disk_two_pages : disk :=
  let page0 := snd (Page.insert_row (Page.__init__ 0) (filling 120)) in
  let page1 := snd (Page.insert_row (Page.__init__ 1) (filling 121)) in
  snd (FileManager.write_page fm (snd (FileManager.write_page fm ∅ users page0)) users page1).

(** A table with one unique column and no primary key, its index attributes
    assigned empty from outside the class. *)
Definition letters_table : Table.t :=
  {| Table.name := users;
     Table.columns := [(str "a", Column.mk (str "a") (str "TEXT") false true true)];
     Table.column_order := [str "a"];
     Table.file_manger := fm;
     Table.primary_key_cols := [];
     Table.unique_cols := [str "a"];
     Table.next_page_id := 0;
     Table.primary_key_index := Some [];
     Table.unique_indexes := Some [(str "a", [])];
     Table.file_manager := None |}.

(** A complete page whose header announces one row of one byte, [x]. *)
Definition garbled : list byte :=
  le32 0 ++ le32 1 ++ le32 17 ++ le32 1 ++ [x78] ++ replicate 4079 x00.

Definition disk_garbled : disk := {[ str "data/users" := garbled ]}.

End Sample.

(** * Properties *)

(** ** Pages: space accounting *)

Lemma len_nonneg {A} (l : list A) : 0 <= len l.
Proof. unfold len. lia. Qed.

Lemma rows_size_nonneg rs : 0 <= Page.rows_size rs.
Proof.
  induction rs as [|row rs IH]; simpl; [lia|].
  pose proof (len_nonneg (json_dumps row)). lia.
Qed.

Lemma rows_size_app rs1 rs2 :
  Page.rows_size (rs1 ++ rs2) = Page.rows_size rs1 + Page.rows_size rs2.
Proof. induction rs1 as [|row rs1 IH]; simpl; lia. Qed.

Lemma used_space_fold rs acc :
  fold_left (fun used row => used + (len (json_dumps row) + 4)) rs acc
  = acc + Page.rows_size rs.
Proof.
  revert acc. induction rs as [|row rs IH]; intros acc; simpl; [lia|].
  rewrite IH. lia.
Qed.

Lemma used_space_rows_size rs : Page.used_space rs = HEADER_SIZE + Page.rows_size rs.
Proof. apply used_space_fold. Qed.

Lemma rows_size_insert rs (i : nat) old new :
  rs !! i = Some old ->
  Page.rows_size (<[i := new]> rs)
  = Page.rows_size rs - len (json_dumps old) + len (json_dumps new).
Proof.
  revert i. induction rs as [|row rs IH]; intros [|i] Hi; simpl in *; try discriminate.
  - injection Hi as ->. lia.
  - rewrite (IH _ Hi). lia.
Qed.

Lemma rows_size_delete rs (i : nat) old :
  rs !! i = Some old ->
  Page.rows_size (delete i rs) = Page.rows_size rs - (len (json_dumps old) + 4).
Proof.
  revert i. induction rs as [|row rs IH]; intros [|i] Hi; simpl in *; try discriminate.
  - injection Hi as ->. lia.
  - rewrite (IH _ Hi). lia.
Qed.

Lemma slot_lookup (rs : list pyvalue) (i : Z) :
  (0 <=? i) && (i <? len rs) = true ->
  rs !! Z.to_nat i = Some (rs !!! Z.to_nat i).
Proof.
  intros H. apply andb_true_iff in H as [H0 H1].
  apply Z.leb_le in H0. apply Z.ltb_lt in H1. unfold len in H1.
  apply list_lookup_lookup_total_lt. lia.
Qed.

Lemma accounted_new page_id : Page.accounted (Page.__init__ page_id).
Proof. split; simpl; unfold HEADER_SIZE, PAGE_SIZE; lia. Qed.

Lemma accounted_insert p row p' :
  Page.accounted p -> Page.insert_row p row = (true, p') -> Page.accounted p'.
Proof.
  intros [Hfso Hle]. unfold Page.insert_row.
  destruct (Page.can_fit p row) eqn:Hfit; simpl; [|discriminate].
  intros [= <-]. unfold Page.can_fit in Hfit. apply Z.geb_le in Hfit.
  split; simpl.
  - rewrite rows_size_app. simpl. lia.
  - lia.
Qed.

Lemma accounted_update p i new p' :
  Page.accounted p -> Page.update_row p i new = (true, p') -> Page.accounted p'.
Proof.
  intros [Hfso Hle]. unfold Page.update_row.
  destruct ((0 <=? i) && (i <? len (Page.rows p))) eqn:Hi; [|discriminate].
  pose proof (slot_lookup _ _ Hi) as Hold.
  set (old := Page.rows p !!! Z.to_nat i) in *.
  destruct ((len (json_dumps new) <=? len (json_dumps old)) || Page.can_fit p new) eqn:Hok;
    [|discriminate].
  intros [= <-]. unfold Page.accounted. simpl.
  rewrite used_space_rows_size, (rows_size_insert _ _ _ _ Hold).
  split; [reflexivity|].
  pose proof (len_nonneg (json_dumps old)).
  apply orb_true_iff in Hok as [Hsmall | Hfit].
  - apply Z.leb_le in Hsmall. lia.
  - unfold Page.can_fit in Hfit. apply Z.geb_le in Hfit. lia.
Qed.

Lemma accounted_delete p i p' :
  Page.accounted p -> Page.delete_row p i = (true, p') -> Page.accounted p'.
Proof.
  intros [Hfso Hle]. unfold Page.delete_row.
  destruct ((0 <=? i) && (i <? len (Page.rows p))) eqn:Hi; [|discriminate].
  pose proof (slot_lookup _ _ Hi) as Hold.
  intros [= <-]. unfold Page.accounted. simpl.
  rewrite used_space_rows_size, (rows_size_delete _ _ _ Hold).
  split; [reflexivity|].
  pose proof (len_nonneg (json_dumps (Page.rows p !!! Z.to_nat i))). lia.
Qed.

Lemma reachable_accounted p : Page.reachable p -> Page.accounted p.
Proof.
  induction 1; eauto using accounted_new, accounted_insert, accounted_update, accounted_delete.
Qed.

(** C7. On every page reached from a new page by successful [insert_row],
    [update_row] and [delete_row] calls, [free_space_offset] is [HEADER_SIZE]
    plus, for each row present, the length of its serialization and of its
    4-byte prefix; and it is at most [PAGE_SIZE]. *)
Theorem free_space_offset_invariant (p : Page.t) :
  Page.reachable p ->
  Page.free_space_offset p
  = HEADER_SIZE + foldr (fun row acc => len (json_dumps row) + 4 + acc) 0 (Page.rows p)
  /\ Page.free_space_offset p <= PAGE_SIZE.
Proof. exact (reachable_accounted p). Qed.

Lemma free_space_offset_invariant_witness :
  Page.reachable Sample.page_alice
  /\ Page.free_space_offset Sample.page_alice = 42
  /\ Page.free_space_offset Sample.page_alice <= PAGE_SIZE.
Proof.
  assert (R : Page.reachable Sample.page_alice).
  { apply (Page.reachable_insert (Page.__init__ 0) Sample.alice).
    - apply Page.reachable_new.
    - reflexivity. }
  split; [exact R|].
  destruct (free_space_offset_invariant Sample.page_alice R) as [E L].
  split; [rewrite E; reflexivity | exact L].
Defined.

(** ** Pages: [update_row] *)

(** C9, as the code has it.  At a valid slot [update_row] succeeds exactly when
    the new row serializes no longer than the old one or [can_fit] accepts the
    new row, that is, when the free space holds the whole new row and its
    prefix; on success the row is replaced in place, [free_space_offset] is
    recomputed from the rows then present and nothing else changes; on failure
    the page is unchanged. *)
Theorem update_row_spec (p : Page.t) (i : Z) (new : pyvalue) :
  0 <= i < len (Page.rows p) ->
  let old_size := len (json_dumps (Page.get_row p i)) in
  let new_size := len (json_dumps new) in
  let '(ok, p') := Page.update_row p i new in
  (ok = true <->
     new_size <= old_size \/ new_size + 4 <= PAGE_SIZE - Page.free_space_offset p)
  /\ (ok = true ->
        Page.rows p' = <[Z.to_nat i := new]> (Page.rows p)
        /\ Page.free_space_offset p' = HEADER_SIZE + Page.rows_size (Page.rows p')
        /\ Page.page_id p' = Page.page_id p /\ Page.num_rows p' = Page.num_rows p)
  /\ (ok = false -> p' = p).
Proof.
  intros Hi. unfold Page.update_row, Page.get_row.
  assert (Hb : (0 <=? i) && (i <? len (Page.rows p)) = true).
  { apply andb_true_iff. split; [apply Z.leb_le | apply Z.ltb_lt]; lia. }
  rewrite Hb. cbv zeta.
  set (old := Page.rows p !!! Z.to_nat i).
  destruct (len (json_dumps new) <=? len (json_dumps old)) eqn:Hsmall; simpl.
  - apply Z.leb_le in Hsmall. rewrite used_space_rows_size.
    repeat split; auto; discriminate.
  - apply Z.leb_gt in Hsmall. unfold Page.can_fit.
    destruct (PAGE_SIZE - Page.free_space_offset p >=? len (json_dumps new) + 4) eqn:Hfit.
    + apply Z.geb_le in Hfit. simpl. rewrite used_space_rows_size.
      repeat split; auto; discriminate.
    + rewrite Z.geb_leb in Hfit. apply Z.leb_gt in Hfit.
      repeat split; try discriminate; auto. intros [?|?]; lia.
Qed.

Lemma update_row_spec_witness :
  0 <= 0 < len (Page.rows Sample.page_alice)
  /\ fst (Page.update_row Sample.page_alice 0 (Sample.wide 3)) = true
  /\ Page.free_space_offset (snd (Page.update_row Sample.page_alice 0 (Sample.wide 3))) = 28.
Proof.
  assert (Hi : 0 <= 0 < len (Page.rows Sample.page_alice)) by (vm_compute; split; congruence).
  split; [exact Hi|].
  pose proof (update_row_spec Sample.page_alice 0 (Sample.wide 3) Hi) as H.
  cbv zeta in H.
  destruct (Page.update_row Sample.page_alice 0 (Sample.wide 3)) as [ok p'] eqn:E.
  destruct H as (Hiff & Hok & _). simpl.
  assert (ok = true) as Ht by (apply Hiff; left; vm_compute; congruence).
  split; [exact Ht|].
  destruct (Hok Ht) as (Hrows & Hfso & _). rewrite Hfso, Hrows. reflexivity.
Defined.

(** C9, as the claim has it, fails: the row at slot 0 of [Sample.page_wide]
    grows by five bytes, the page has ten bytes free, and [update_row]
    refuses, because [can_fit] asks for room for the whole new row. *)
Lemma update_row_refuses_growth_that_fits :
  0 <= 0 < len (Page.rows Sample.page_wide)
  /\ PAGE_SIZE - Page.free_space_offset Sample.page_wide = 10
  /\ len (json_dumps (Sample.wide 4066)) - len (json_dumps (Page.get_row Sample.page_wide 0)) = 5
  /\ Page.update_row Sample.page_wide 0 (Sample.wide 4066) = (false, Sample.page_wide).
Proof. vm_compute. repeat split; congruence. Qed.

(** ** [struct]: packing and unpacking *)

Lemma Z_of_byte_of_Z z : Z_of_byte (byte_of_Z z) = z mod 256.
Proof.
  unfold Z_of_byte, byte_of_Z.
  pose proof (Z.mod_pos_bound z 256 ltac:(lia)) as Hb.
  destruct (Byte.of_N (Z.to_N (z mod 256))) as [b|] eqn:E.
  - apply Byte.to_of_N in E. rewrite E. apply Z2N.id. lia.
  - apply Byte.of_N_None_iff in E. lia.
Qed.

Lemma le32_bits z :
  0 <= z < 2 ^ 32 ->
  Z.lor (z mod 256)
    (Z.lor (Z.shiftl (Z.shiftr z 8 mod 256) 8)
       (Z.lor (Z.shiftl (Z.shiftr z 16 mod 256) 16) (Z.shiftl (Z.shiftr z 24 mod 256) 24)))
  = z.
Proof.
  intros Hz. apply Z.bits_inj'. intros n Hn.
  rewrite !Z.lor_spec, !Z.shiftl_spec by lia.
  change 256 with (2 ^ 8).
  rewrite Z.testbit_mod_pow2 by lia.
  destruct (Z.ltb_spec n 8) as [H8|H8].
  { rewrite (Z.testbit_neg_r _ (n - 8)), (Z.testbit_neg_r _ (n - 16)),
      (Z.testbit_neg_r _ (n - 24)) by lia.
    simpl. rewrite !orb_false_r. reflexivity. }
  rewrite (Z.testbit_mod_pow2 _ 8 (n - 8)) by lia.
  rewrite Z.shiftr_spec by lia. replace (n - 8 + 8) with n by lia.
  destruct (Z.ltb_spec (n - 8) 8) as [H16|H16].
  { rewrite (Z.testbit_neg_r _ (n - 16)), (Z.testbit_neg_r _ (n - 24)) by lia.
    simpl. rewrite !orb_false_r. reflexivity. }
  rewrite (Z.testbit_mod_pow2 _ 8 (n - 16)) by lia.
  rewrite Z.shiftr_spec by lia. replace (n - 16 + 16) with n by lia.
  destruct (Z.ltb_spec (n - 16) 8) as [H24|H24].
  { rewrite (Z.testbit_neg_r _ (n - 24)) by lia.
    simpl. rewrite !orb_false_r. reflexivity. }
  rewrite (Z.testbit_mod_pow2 _ 8 (n - 24)) by lia.
  rewrite Z.shiftr_spec by lia. replace (n - 24 + 24) with n by lia.
  destruct (Z.ltb_spec (n - 24) 8) as [H32|H32]; simpl; [reflexivity|].
  symmetry. apply (Z.bits_above_log2 z n); [lia|].
  destruct (Z.eq_dec z 0) as [->|Hz0]; [simpl; lia|].
  assert (Z.log2 z < 32) by (apply Z.log2_lt_pow2; lia). lia.
Qed.

Lemma struct_unpack_pack_I z packed :
  struct_pack_I z = Ok packed ->
  struct_unpack_I packed = Ok z /\ length packed = 4%nat.
Proof.
  unfold struct_pack_I.
  destruct ((0 <=? z) && (z <? 2 ^ 32)) eqn:Hr; [|discriminate].
  apply andb_true_iff in Hr as [H0 H1]. apply Z.leb_le in H0. apply Z.ltb_lt in H1.
  intros [= <-]. split; [|reflexivity].
  unfold le32, struct_unpack_I. rewrite !Z_of_byte_of_Z.
  f_equal. apply le32_bits. lia.
Qed.

(** The third byte of a length below 65536 is zero. *)
Lemma le32_third_byte z : 0 <= z < 65536 -> le32 z !! 2%nat = Some x00.
Proof.
  intros Hz. unfold le32. simpl. f_equal.
  replace (Z.shiftr z 16) with 0; [reflexivity|].
  rewrite Z.shiftr_div_pow2 by lia. symmetry. apply Z.div_small. lia.
Qed.

(** ** The scanner reads no NUL *)

Lemma reads_refl s : reads s s.
Proof. exists []. split; [reflexivity | constructor]. Qed.

Lemma reads_cons c s r : c <> 0%N -> reads s r -> reads (c :: s) r.
Proof.
  intros Hc (pre & -> & Hpre). exists (c :: pre). split; [reflexivity|].
  constructor; assumption.
Qed.

Lemma reads_trans s r t : reads s r -> reads r t -> reads s t.
Proof.
  intros (p1 & -> & H1) (p2 & -> & H2). exists (p1 ++ p2).
  split; [apply app_assoc | apply Forall_app; auto].
Qed.

Lemma reads_all s : reads s [] -> ~ In 0%N s.
Proof.
  intros (pre & -> & Hpre). rewrite app_nil_r.
  intros Hin. rewrite Forall_forall in Hpre.
  apply list_elem_of_In in Hin. exact (Hpre _ Hin eq_refl).
Qed.

Lemma eqb_nonzero (c k : N) : (c =? k)%N = true -> k <> 0%N -> c <> 0%N.
Proof. intros H Hk. apply N.eqb_eq in H. congruence. Qed.

Lemma within_nonzero lo hi c : within lo hi c = true -> lo <> 0%N -> c <> 0%N.
Proof.
  unfold within. intros H Hlo. apply andb_true_iff in H as [H _].
  apply N.leb_le in H. lia.
Qed.

Lemma skip_ws_reads s : reads s (skip_ws s).
Proof.
  induction s as [|c s IH]; simpl; [apply reads_refl|].
  destruct (is_ws c) eqn:Hc; [|apply reads_refl].
  apply reads_cons; [|exact IH].
  unfold is_ws in Hc. intros ->. discriminate.
Qed.

Lemma span_digits_reads s ds r : span_digits s = (ds, r) -> reads s r.
Proof.
  revert ds r. induction s as [|c s IH]; intros ds r; simpl.
  - intros [= <- <-]. apply reads_refl.
  - destruct (is_digit c) eqn:Hc.
    + destruct (span_digits s) as [ds' r'] eqn:E. intros [= <- <-].
      apply reads_cons; [|eapply IH; reflexivity].
      unfold is_digit in Hc. eapply within_nonzero; [exact Hc | discriminate].
    + intros [= <- <-]. apply reads_refl.
Qed.

Lemma strip_prefix_reads lit s r :
  Forall (fun c => c <> 0%N) lit -> strip_prefix lit s = Some r -> reads s r.
Proof.
  intros Hlit. revert s. induction Hlit as [|a lit Ha Hlit IH]; intros s; simpl.
  - intros [= <-]. apply reads_refl.
  - destruct s as [|b s]; [discriminate|].
    destruct (a =? b)%N eqn:E; [|discriminate].
    apply N.eqb_eq in E as <-. intros H. apply reads_cons; auto.
Qed.

Lemma hex_val_nonzero c x : hex_val c = Some x -> c <> 0%N.
Proof.
  unfold hex_val.
  destruct (within 48 57 c) eqn:H1; [intros _; eapply within_nonzero; [eassumption | discriminate]|].
  destruct (within 97 102 c) eqn:H2; [intros _; eapply within_nonzero; [eassumption | discriminate]|].
  destruct (within 65 70 c) eqn:H3; [intros _; eapply within_nonzero; [eassumption | discriminate]|].
  discriminate.
Qed.

Lemma hex4_val_nonzero a b c d u :
  hex4_val a b c d = Some u -> a <> 0%N /\ b <> 0%N /\ c <> 0%N /\ d <> 0%N.
Proof.
  unfold hex4_val.
  destruct (hex_val a) eqn:Ha; simpl; [|discriminate].
  destruct (hex_val b) eqn:Hb; simpl; [|discriminate].
  destruct (hex_val c) eqn:Hc; simpl; [|discriminate].
  destruct (hex_val d) eqn:Hd; simpl; [|discriminate].
  intros _. repeat split; eapply hex_val_nonzero; eassumption.
Qed.

Lemma simple_escape_nonzero e x : simple_escape e = Some x -> e <> 0%N.
Proof. intros H ->. discriminate. Qed.

Lemma scanstring_reads s acc t r : scanstring s acc = Ok (t, r) -> reads s r.
Proof.
  remember (length s) as n eqn:Hn. revert s acc Hn.
  induction n as [n IH] using lt_wf_ind. intros s acc Hn.
  destruct s as [|c s]; [discriminate|]. simpl.
  destruct (c =? 34)%N eqn:Hq.
  { intros [= <- <-]. apply reads_cons; [|apply reads_refl].
    eapply eqb_nonzero; [eassumption | discriminate]. }
  destruct (c =? 92)%N eqn:Hb.
  - assert (c <> 0%N) as Hc by (eapply eqb_nonzero; [eassumption | discriminate]).
    destruct s as [|e r1]; [discriminate|].
    destruct (e =? 117)%N eqn:Hu.
    + assert (e <> 0%N) as He by (eapply eqb_nonzero; [eassumption | discriminate]).
      destruct r1 as [|h1 [|h2 [|h3 [|h4 r2]]]]; try discriminate.
      destruct (hex4_val h1 h2 h3 h4) as [u|] eqn:Hhex; [|discriminate].
      apply hex4_val_nonzero in Hhex as (H1 & H2 & H3 & H4).
      assert (forall acc', scanstring r2 acc' = Ok (t, r) -> reads (c :: e :: h1 :: h2 :: h3 :: h4 :: r2) r)
        as Hplain.
      { intros acc' H. repeat (apply reads_cons; [assumption|]).
        eapply (IH (length r2)); [simpl in Hn; lia | reflexivity | exact H]. }
      destruct (within 55296 56319 u); [|apply Hplain].
      destruct r2 as [|b [|v [|g1 [|g2 [|g3 [|g4 [|x r3]]]]]]]; try apply Hplain.
      destruct ((b =? 92) && (v =? 117))%N eqn:Hbv; [|apply Hplain].
      apply andb_true_iff in Hbv as [Hb2 Hv2].
      destruct (hex4_val g1 g2 g3 g4) as [u2|] eqn:Hhex2; [|discriminate].
      apply hex4_val_nonzero in Hhex2 as (G1 & G2 & G3 & G4).
      destruct (within 56320 57343 u2); [|apply Hplain].
      intros H. repeat (apply reads_cons; [assumption|]).
      apply reads_cons; [eapply eqb_nonzero; [eassumption | discriminate]|].
      apply reads_cons; [eapply eqb_nonzero; [eassumption | discriminate]|].
      repeat (apply reads_cons; [assumption|]).
      eapply (IH (length (x :: r3))); [simpl in *; lia | reflexivity | exact H].
    + destruct (simple_escape e) as [x|] eqn:Hesc; [|discriminate].
      intros H. apply reads_cons; [assumption|].
      apply reads_cons; [eapply simple_escape_nonzero; eauto|].
      eapply (IH (length r1)); [simpl in Hn; lia | reflexivity | exact H].
  - destruct (c <? 32)%N eqn:Hctl; [discriminate|].
    intros H. apply reads_cons; [apply N.ltb_ge in Hctl; lia|].
    eapply (IH (length s)); [simpl in Hn; lia | reflexivity | exact H].
Qed.

Lemma scan_sign_reads s sign r : scan_sign s = (sign, r) -> reads s r.
Proof.
  destruct s as [|c s]; simpl.
  - intros [= <- <-]. apply reads_refl.
  - destruct (c =? 45)%N eqn:E; intros [= <- <-]; [|apply reads_refl].
    apply reads_cons; [|apply reads_refl]. eapply eqb_nonzero; [eassumption | discriminate].
Qed.

Lemma scan_int_reads s ds r : scan_int s = Some (ds, r) -> reads s r.
Proof.
  destruct s as [|d s]; simpl; [discriminate|].
  destruct (is_digit d) eqn:Hd; simpl; [|discriminate].
  assert (d <> 0%N) as Hnz by (eapply within_nonzero; [exact Hd | discriminate]).
  destruct (d =? 48)%N.
  - intros [= <- <-]. apply reads_cons; [assumption | apply reads_refl].
  - destruct (span_digits s) as [ds' r'] eqn:E. intros [= <- <-].
    apply reads_cons; [assumption | eapply span_digits_reads; eassumption].
Qed.

Lemma scan_frac_reads s fs r : scan_frac s = (fs, r) -> reads s r.
Proof.
  destruct s as [|c s]; simpl.
  - intros [= <- <-]. apply reads_refl.
  - destruct (c =? 46)%N eqn:E; [|intros [= <- <-]; apply reads_refl].
    destruct (span_digits s) as [[|f fs'] r'] eqn:Hs; intros [= <- <-].
    + apply reads_refl.
    + apply reads_cons; [eapply eqb_nonzero; [eassumption | discriminate]|].
      eapply span_digits_reads; eassumption.
Qed.

Lemma scan_exp_sign_reads s sgn r : scan_exp_sign s = (sgn, r) -> reads s r.
Proof.
  destruct s as [|g t]; simpl; [intros [= <- <-]; apply reads_refl|].
  destruct ((g =? 45) || (g =? 43))%N eqn:G; intros [= <- <-]; [|apply reads_refl].
  apply reads_cons; [|apply reads_refl].
  apply orb_true_iff in G as [G|G]; eapply eqb_nonzero; try eassumption; discriminate.
Qed.

Lemma scan_exp_reads s es r : scan_exp s = (es, r) -> reads s r.
Proof.
  destruct s as [|c s]; simpl.
  - intros [= <- <-]. apply reads_refl.
  - destruct ((c =? 101) || (c =? 69))%N eqn:E; [|intros [= <- <-]; apply reads_refl].
    assert (c <> 0%N) as Hc.
    { apply orb_true_iff in E as [E|E]; eapply eqb_nonzero; try eassumption; discriminate. }
    destruct (scan_exp_sign s) as [sgn r'] eqn:Hm.
    apply scan_exp_sign_reads in Hm.
    destruct (span_digits r') as [[|e es'] r''] eqn:Hs; intros [= <- <-].
    + apply reads_refl.
    + apply reads_cons; [assumption|]. eapply reads_trans; [exact Hm|].
      eapply span_digits_reads; eassumption.
Qed.

Lemma match_number_reads s v r : match_number s = Some (v, r) -> reads s r.
Proof.
  unfold match_number.
  destruct (scan_sign s) as [sign s1] eqn:H1.
  destruct (scan_int s1) as [[int_part r1]|] eqn:H2; [|discriminate].
  destruct (scan_frac r1) as [frac r2] eqn:H3.
  destruct (scan_exp r2) as [exp r3] eqn:H4.
  intros H. assert (r = r3) as -> by (destruct frac, exp; congruence).
  eapply reads_trans; [eapply scan_sign_reads; eassumption|].
  eapply reads_trans; [eapply scan_int_reads; eassumption|].
  eapply reads_trans; [eapply scan_frac_reads; eassumption|].
  eapply scan_exp_reads; eassumption.
Qed.

Lemma scan_literal_reads s v r : scan_literal s = Ok (v, r) -> reads s r.
Proof.
  assert (forall lit, (forallb (fun c => negb (c =? 0)%N) (str lit)) = true ->
                      forall r', strip_prefix (str lit) s = Some r' -> reads s r') as Hlit.
  { intros lit Hl r'. apply strip_prefix_reads.
    apply Forall_forall. intros c Hc. rewrite forallb_forall in Hl.
    apply list_elem_of_In in Hc. specialize (Hl c Hc).
    apply negb_true_iff, N.eqb_neq in Hl. exact Hl. }
  pose proof (Hlit "null"%string eq_refl) as Hnull.
  pose proof (Hlit "true"%string eq_refl) as Htrue.
  pose proof (Hlit "false"%string eq_refl) as Hfalse.
  pose proof (Hlit "NaN"%string eq_refl) as Hnan.
  pose proof (Hlit "Infinity"%string eq_refl) as Hinf.
  pose proof (Hlit "-Infinity"%string eq_refl) as Hninf.
  unfold scan_literal.
  destruct (strip_prefix (str "null") s); [intros [= <- <-]; auto|].
  destruct (strip_prefix (str "true") s); [intros [= <- <-]; auto|].
  destruct (strip_prefix (str "false") s); [intros [= <- <-]; auto|].
  destruct (strip_prefix (str "NaN") s); [intros [= <- <-]; auto|].
  destruct (strip_prefix (str "Infinity") s); [intros [= <- <-]; auto|].
  destruct (strip_prefix (str "-Infinity") s); [intros [= <- <-]; auto|].
  destruct (match_number s) as [[v' r']|] eqn:Hn; [|discriminate].
  intros [= <- <-]. eapply match_number_reads; eassumption.
Qed.

Lemma scan_reads fuel :
  (forall s v r, scan_once fuel s = Ok (v, r) -> reads s r)
  /\ (forall s acc d r, parse_members fuel s acc = Ok (d, r) -> reads s r)
  /\ (forall s acc l r, parse_items fuel s acc = Ok (l, r) -> reads s r).
Proof.
  induction fuel as [|fuel (IHv & IHm & IHi)]; [repeat split; discriminate|].
  repeat split.
  - intros s v r. cbn [scan_once]. destruct s as [|c s]; [discriminate|].
    destruct (c =? 34)%N eqn:Hq.
    { destruct (scanstring s []) as [[t r']|] eqn:Hs; simpl; [|discriminate].
      intros [= <- <-]. apply reads_cons; [eapply eqb_nonzero; [eassumption | discriminate]|].
      eapply scanstring_reads; eassumption. }
    destruct (c =? 123)%N eqn:Hbrace.
    { assert (c <> 0%N) as Hc by (eapply eqb_nonzero; [eassumption | discriminate]).
      pose proof (skip_ws_reads s) as Hws.
      destruct (skip_ws s) as [|c' r']; [discriminate|].
      destruct (c' =? 125)%N eqn:Hclose.
      - intros [= <- <-]. apply reads_cons; [assumption|].
        eapply reads_trans; [exact Hws|].
        apply reads_cons; [eapply eqb_nonzero; [eassumption | discriminate] | apply reads_refl].
      - destruct (parse_members fuel (c' :: r') []) as [[d r'']|] eqn:Hm; simpl; [|discriminate].
        intros [= <- <-]. apply reads_cons; [assumption|].
        eapply reads_trans; [exact Hws | eapply IHm; eassumption]. }
    destruct (c =? 91)%N eqn:Hbracket.
    { assert (c <> 0%N) as Hc by (eapply eqb_nonzero; [eassumption | discriminate]).
      pose proof (skip_ws_reads s) as Hws.
      destruct (skip_ws s) as [|c' r']; [discriminate|].
      destruct (c' =? 93)%N eqn:Hclose.
      - intros [= <- <-]. apply reads_cons; [assumption|].
        eapply reads_trans; [exact Hws|].
        apply reads_cons; [eapply eqb_nonzero; [eassumption | discriminate] | apply reads_refl].
      - destruct (parse_items fuel (c' :: r') []) as [[l r'']|] eqn:Hm; simpl; [|discriminate].
        intros [= <- <-]. apply reads_cons; [assumption|].
        eapply reads_trans; [exact Hws | eapply IHi; eassumption]. }
    apply scan_literal_reads.
  - intros s acc d r. cbn [parse_members]. destruct s as [|c s]; [discriminate|].
    destruct (c =? 34)%N eqn:Hq; [|discriminate].
    destruct (scanstring s []) as [[k r1]|] eqn:Hs; simpl; [|discriminate].
    pose proof (skip_ws_reads r1) as Hws1.
    destruct (skip_ws r1) as [|c2 r2]; [discriminate|].
    destruct (c2 =? 58)%N eqn:Hcolon; [|discriminate].
    pose proof (skip_ws_reads r2) as Hws2.
    destruct (scan_once fuel (skip_ws r2)) as [[v r3]|] eqn:Hv; simpl; [|discriminate].
    pose proof (skip_ws_reads r3) as Hws3.
    assert (reads (c :: s) (skip_ws r3)) as Hhead.
    { apply reads_cons; [eapply eqb_nonzero; [eassumption | discriminate]|].
      eapply reads_trans; [eapply scanstring_reads; eassumption|].
      eapply reads_trans; [exact Hws1|].
      apply reads_cons; [eapply eqb_nonzero; [eassumption | discriminate]|].
      eapply reads_trans; [exact Hws2|].
      eapply reads_trans; [eapply IHv; eassumption | exact Hws3]. }
    destruct (skip_ws r3) as [|c3 r4]; [discriminate|].
    destruct (c3 =? 125)%N eqn:Hclose.
    + intros [= <- <-]. eapply reads_trans; [exact Hhead|].
      apply reads_cons; [eapply eqb_nonzero; [eassumption | discriminate] | apply reads_refl].
    + destruct (c3 =? 44)%N eqn:Hcomma; [|discriminate].
      intros H. eapply reads_trans; [exact Hhead|].
      apply reads_cons; [eapply eqb_nonzero; [eassumption | discriminate]|].
      eapply reads_trans; [apply skip_ws_reads | eapply IHm; eassumption].
  - intros s acc l r. cbn [parse_items].
    destruct (scan_once fuel s) as [[v r1]|] eqn:Hv; simpl; [|discriminate].
    pose proof (skip_ws_reads r1) as Hws1.
    assert (reads s (skip_ws r1)) as Hhead
      by (eapply reads_trans; [eapply IHv; eassumption | exact Hws1]).
    destruct (skip_ws r1) as [|c r2]; [discriminate|].
    destruct (c =? 93)%N eqn:Hclose.
    + intros [= <- <-]. eapply reads_trans; [exact Hhead|].
      apply reads_cons; [eapply eqb_nonzero; [eassumption | discriminate] | apply reads_refl].
    + destruct (c =? 44)%N eqn:Hcomma; [|discriminate].
      intros H. eapply reads_trans; [exact Hhead|].
      apply reads_cons; [eapply eqb_nonzero; [eassumption | discriminate]|].
      eapply reads_trans; [apply skip_ws_reads | eapply IHi; eassumption].
Qed.

(** [json.loads] accepts no text that holds the character NUL. *)
Lemma json_loads_rejects_nul s : In 0%N s -> raises (json_loads s).
Proof.
  intros Hin. unfold json_loads.
  destruct (starts_with_bom s); [exact I|].
  destruct (scan_once _ _) as [[v r]|] eqn:Hv; simpl; [|exact I].
  pose proof (skip_ws_reads r) as Hws.
  destruct (skip_ws r) as [|c r']; [|exact I].
  exfalso. refine (reads_all s _ Hin).
  eapply reads_trans; [apply skip_ws_reads|].
  eapply reads_trans; [eapply (proj1 (scan_reads _)); eassumption | exact Hws].
Qed.

(** ** The scanner's fuel *)

Lemma reads_length s r : reads s r -> (length r <= length s)%nat.
Proof. intros (pre & -> & _). rewrite length_app. lia. Qed.

Lemma scan_literal_shorter s v r :
  scan_literal s = Ok (v, r) -> (length r < length s)%nat.
Proof.
  assert (forall lit r', lit <> [] -> strip_prefix lit s = Some r' ->
                         (length r' < length s)%nat) as Hlit.
  { intros lit. revert s. induction lit as [|a lit IH]; intros s r' Hne; [contradiction|].
    destruct s as [|b s]; simpl; [discriminate|].
    destruct (a =? b)%N; [|discriminate].
    destruct lit as [|a' lit'].
    - simpl. intros [= <-]. lia.
    - intros H. apply IH in H; [lia | discriminate]. }
  unfold scan_literal.
  destruct (strip_prefix (str "null") s) eqn:E1;
    [intros [= <- <-]; eapply Hlit; [|exact E1]; discriminate|].
  destruct (strip_prefix (str "true") s) eqn:E2;
    [intros [= <- <-]; eapply Hlit; [|exact E2]; discriminate|].
  destruct (strip_prefix (str "false") s) eqn:E3;
    [intros [= <- <-]; eapply Hlit; [|exact E3]; discriminate|].
  destruct (strip_prefix (str "NaN") s) eqn:E4;
    [intros [= <- <-]; eapply Hlit; [|exact E4]; discriminate|].
  destruct (strip_prefix (str "Infinity") s) eqn:E5;
    [intros [= <- <-]; eapply Hlit; [|exact E5]; discriminate|].
  destruct (strip_prefix (str "-Infinity") s) eqn:E6;
    [intros [= <- <-]; eapply Hlit; [|exact E6]; discriminate|].
  destruct (match_number s) as [[v' r']|] eqn:Hn; [|discriminate].
  intros [= <- <-]. unfold match_number in Hn.
  destruct (scan_sign s) as [sign s1] eqn:H1.
  destruct (scan_int s1) as [[int_part r1]|] eqn:H2; [|discriminate].
  destruct (scan_frac r1) as [frac r2] eqn:H3.
  destruct (scan_exp r2) as [exp r3] eqn:H4.
  assert (r' = r3) as -> by (destruct frac, exp; congruence).
  apply scan_sign_reads, reads_length in H1.
  apply scan_frac_reads, reads_length in H3.
  apply scan_exp_reads, reads_length in H4.
  assert (length r1 < length s1)%nat; [|lia].
  destruct s1 as [|d s1]; simpl in H2; [discriminate|].
  destruct (negb (is_digit d)); [discriminate|].
  destruct (d =? 48)%N.
  - injection H2 as <- <-. simpl. lia.
  - destruct (span_digits s1) as [ds r''] eqn:Hs. injection H2 as <- <-.
    apply span_digits_reads, reads_length in Hs. simpl. lia.
Qed.

(** A value takes at least one character. *)
Lemma scan_once_shorter fuel s v r :
  scan_once fuel s = Ok (v, r) -> (length r < length s)%nat.
Proof.
  destruct fuel as [|fuel]; [discriminate|]. cbn [scan_once].
  destruct s as [|c s]; [discriminate|].
  destruct (c =? 34)%N.
  { destruct (scanstring s []) as [[t r']|] eqn:Hs; simpl; [|discriminate].
    intros [= <- <-]. apply scanstring_reads, reads_length in Hs. simpl. lia. }
  pose proof (reads_length _ _ (skip_ws_reads s)) as Hws.
  destruct (c =? 123)%N.
  { destruct (skip_ws s) as [|c' r']; [discriminate|].
    destruct (c' =? 125)%N; [intros [= <- <-]; simpl in *; lia|].
    destruct (parse_members fuel (c' :: r') []) as [[d r'']|] eqn:Hm; simpl; [|discriminate].
    intros [= <- <-]. apply (proj1 (proj2 (scan_reads _))), reads_length in Hm.
    simpl in *. lia. }
  destruct (c =? 91)%N.
  { destruct (skip_ws s) as [|c' r']; [discriminate|].
    destruct (c' =? 93)%N; [intros [= <- <-]; simpl in *; lia|].
    destruct (parse_items fuel (c' :: r') []) as [[l r'']|] eqn:Hm; simpl; [|discriminate].
    intros [= <- <-]. apply (proj2 (proj2 (scan_reads _))), reads_length in Hm.
    simpl in *. lia. }
  apply scan_literal_shorter.
Qed.

Lemma scanstring_error s acc e : scanstring s acc = Raise e -> e <> RecursionError.
Proof.
  remember (length s) as n eqn:Hn. revert s acc Hn.
  induction n as [n IH] using lt_wf_ind. intros s acc Hn.
  destruct s as [|c s]; [intros [= <-]; discriminate|]. simpl.
  destruct (c =? 34)%N; [discriminate|].
  destruct (c =? 92)%N.
  - destruct s as [|e' r1]; [intros [= <-]; discriminate|].
    destruct (e' =? 117)%N.
    + destruct r1 as [|h1 [|h2 [|h3 [|h4 r2]]]]; try (intros [= <-]; discriminate).
      destruct (hex4_val h1 h2 h3 h4) as [u|]; [|intros [= <-]; discriminate].
      assert (forall acc', scanstring r2 acc' = Raise e -> e <> RecursionError) as Hplain.
      { intros acc'. eapply (IH (length r2)); [simpl in Hn; lia | reflexivity]. }
      destruct (within 55296 56319 u); [|apply Hplain].
      destruct r2 as [|b [|v [|g1 [|g2 [|g3 [|g4 [|x r3]]]]]]]; try apply Hplain.
      destruct ((b =? 92) && (v =? 117))%N; [|apply Hplain].
      destruct (hex4_val g1 g2 g3 g4) as [u2|]; [|intros [= <-]; discriminate].
      destruct (within 56320 57343 u2); [|apply Hplain].
      eapply (IH (length (x :: r3))); [simpl in *; lia | reflexivity].
    + destruct (simple_escape e'); [|intros [= <-]; discriminate].
      eapply (IH (length r1)); [simpl in Hn; lia | reflexivity].
  - destruct (c <? 32)%N; [intros [= <-]; discriminate|].
    eapply (IH (length s)); [simpl in Hn; lia | reflexivity].
Qed.

Lemma scan_literal_error s e : scan_literal s = Raise e -> e <> RecursionError.
Proof.
  unfold scan_literal.
  repeat (destruct (strip_prefix _ s); [discriminate|]).
  destruct (match_number s); [discriminate|]. intros [= <-]. discriminate.
Qed.

(** Two units of fuel for every character are enough. *)
Lemma scan_fuel fuel :
  (forall s, (2 * length s + 1 <= fuel)%nat -> scan_once fuel s <> Raise RecursionError)
  /\ (forall s acc, (2 * length s + 2 <= fuel)%nat ->
        parse_members fuel s acc <> Raise RecursionError)
  /\ (forall s acc, (2 * length s + 2 <= fuel)%nat ->
        parse_items fuel s acc <> Raise RecursionError).
Proof.
  induction fuel as [|fuel (IHv & IHm & IHi)]; [repeat split; intros; lia|].
  repeat split.
  - intros s Hf. cbn [scan_once]. destruct s as [|c s]; [discriminate|].
    destruct (c =? 34)%N.
    { destruct (scanstring s []) as [[t r']|e] eqn:Hs; simpl; [discriminate|].
      apply scanstring_error in Hs. congruence. }
    pose proof (reads_length _ _ (skip_ws_reads s)) as Hws.
    destruct (c =? 123)%N.
    { destruct (skip_ws s) as [|c' r']; [discriminate|].
      destruct (c' =? 125)%N; [discriminate|].
      specialize (IHm (c' :: r') []).
      destruct (parse_members fuel (c' :: r') []) as [[d r'']|e]; simpl; [discriminate|].
      intros [= ->]. apply IHm; [simpl in *; lia | reflexivity]. }
    destruct (c =? 91)%N.
    { destruct (skip_ws s) as [|c' r']; [discriminate|].
      destruct (c' =? 93)%N; [discriminate|].
      specialize (IHi (c' :: r') []).
      destruct (parse_items fuel (c' :: r') []) as [[l r'']|e]; simpl; [discriminate|].
      intros [= ->]. apply IHi; [simpl in *; lia | reflexivity]. }
    intros H. apply scan_literal_error in H. congruence.
  - intros s acc Hf. cbn [parse_members]. destruct s as [|c s]; [discriminate|].
    destruct (c =? 34)%N; [|discriminate].
    destruct (scanstring s []) as [[k r1]|e] eqn:Hs; simpl;
      [|apply scanstring_error in Hs; congruence].
    apply scanstring_reads, reads_length in Hs.
    pose proof (reads_length _ _ (skip_ws_reads r1)) as Hws1.
    destruct (skip_ws r1) as [|c2 r2]; [discriminate|].
    destruct (c2 =? 58)%N; [|discriminate].
    pose proof (reads_length _ _ (skip_ws_reads r2)) as Hws2.
    specialize (IHv (skip_ws r2)).
    destruct (scan_once fuel (skip_ws r2)) as [[v r3]|e] eqn:Hv; simpl.
    2:{ intros [= ->]. apply IHv; [simpl in *; lia | reflexivity]. }
    apply scan_once_shorter in Hv.
    pose proof (reads_length _ _ (skip_ws_reads r3)) as Hws3.
    destruct (skip_ws r3) as [|c3 r4]; [discriminate|].
    destruct (c3 =? 125)%N; [discriminate|].
    destruct (c3 =? 44)%N; [|discriminate].
    pose proof (reads_length _ _ (skip_ws_reads r4)) as Hws4.
    apply IHm. simpl in *. lia.
  - intros s acc Hf. cbn [parse_items].
    specialize (IHv s).
    destruct (scan_once fuel s) as [[v r1]|e] eqn:Hv; simpl.
    2:{ intros [= ->]. apply IHv; [lia | reflexivity]. }
    apply scan_once_shorter in Hv.
    pose proof (reads_length _ _ (skip_ws_reads r1)) as Hws1.
    destruct (skip_ws r1) as [|c r2]; [discriminate|].
    destruct (c =? 93)%N; [discriminate|].
    destruct (c =? 44)%N; [|discriminate].
    pose proof (reads_length _ _ (skip_ws_reads r2)) as Hws2.
    apply IHi. simpl in *. lia.
Qed.

(** [json_loads] never stops for want of fuel. *)
Lemma json_loads_fuel s : json_loads s <> Raise RecursionError.
Proof.
  unfold json_loads. destruct (starts_with_bom s); [discriminate|].
  pose proof (reads_length _ _ (skip_ws_reads s)) as Hws.
  pose proof (proj1 (scan_fuel (2 * length s + 2)) (skip_ws s)) as Hfuel.
  destruct (scan_once _ _) as [[v r]|e]; simpl.
  - destruct (skip_ws r); discriminate.
  - intros [= ->]. apply Hfuel; [lia | reflexivity].
Qed.

(** ** Decoding keeps a NUL *)

Lemma utf8_decode_N_keeps_nul bs s :
  utf8_decode_N bs = Ok s -> In 0%N bs -> In 0%N s.
Proof.
  remember (length bs) as n eqn:Hn. revert bs s Hn.
  induction n as [n IH] using lt_wf_ind. intros bs s Hn.
  destruct bs as [|b0 r0]; [intros _ []|]. cbn [utf8_decode_N].
  destruct (b0 <? 128)%N eqn:H0.
  { destruct (utf8_decode_N r0) as [s'|] eqn:E; simpl; [|discriminate].
    intros [= <-] [->|Hin]; [left; reflexivity|].
    right. eapply (IH (length r0)); [simpl in Hn; lia | reflexivity | exact E | exact Hin]. }
  assert (b0 <> 0%N) as Hb0 by (apply N.ltb_ge in H0; lia).
  assert (forall lo hi b, within lo hi b = true -> (128 <= lo)%N -> b <> 0%N) as Hw.
  { intros lo hi b H Hlo. unfold within in H. apply andb_true_iff in H as [H _].
    apply N.leb_le in H. lia. }
  assert (forall b, is_cont b = true -> b <> 0%N) as Hc.
  { intros b H. apply (Hw 128 191 b H)%N. lia. }
  destruct (within 194 223 b0).
  { destruct r0 as [|b1 r1]; [discriminate|].
    destruct (is_cont b1) eqn:C1; [|discriminate].
    destruct (utf8_decode_N r1) as [s'|] eqn:E; simpl; [|discriminate].
    intros [= <-] [?|[?|Hin]]; [congruence | apply Hc in C1; congruence |].
    right. eapply (IH (length r1)); [simpl in Hn; lia | reflexivity | exact E | exact Hin]. }
  destruct (within 224 239 b0).
  { destruct r0 as [|b1 [|b2 r2]]; try discriminate.
    destruct (within _ _ b1 && is_cont b2) eqn:C; [|discriminate].
    apply andb_true_iff in C as [C1 C2].
    assert (b1 <> 0%N) as Hb1 by (apply (Hw _ _ _ C1); destruct (b0 =? 224)%N; lia).
    destruct (utf8_decode_N r2) as [s'|] eqn:E; simpl; [|discriminate].
    intros [= <-] [?|[?|[?|Hin]]]; [congruence | congruence | apply Hc in C2; congruence |].
    right. eapply (IH (length r2)); [simpl in Hn; lia | reflexivity | exact E | exact Hin]. }
  destruct (within 240 244 b0); [|discriminate].
  destruct r0 as [|b1 [|b2 [|b3 r3]]]; try discriminate.
  destruct (within _ _ b1 && is_cont b2 && is_cont b3) eqn:C; [|discriminate].
  apply andb_true_iff in C as [C C3]. apply andb_true_iff in C as [C1 C2].
  assert (b1 <> 0%N) as Hb1 by (apply (Hw _ _ _ C1); destruct (b0 =? 240)%N; lia).
  destruct (utf8_decode_N r3) as [s'|] eqn:E; simpl; [|discriminate].
  intros [= <-] [?|[?|[?|[?|Hin]]]];
    [congruence | congruence | apply Hc in C2; congruence | apply Hc in C3; congruence |].
  right. eapply (IH (length r3)); [simpl in Hn; lia | reflexivity | exact E | exact Hin].
Qed.

Lemma utf8_decode_keeps_nul data s :
  utf8_decode data = Ok s -> In x00 data -> In 0%N s.
Proof.
  unfold utf8_decode. intros H Hin. eapply utf8_decode_N_keeps_nul; [exact H|].
  change 0%N with (Byte.to_N x00). apply in_map. exact Hin.
Qed.

(** The text of a row with a NUL byte in it is no row. *)
Lemma row_text_with_nul data :
  In x00 data -> raises (row_json ← utf8_decode data; json_loads row_json).
Proof.
  intros Hin. destruct (utf8_decode data) as [s|] eqn:E; simpl; [|exact I].
  apply json_loads_rejects_nul. eapply utf8_decode_keeps_nul; eassumption.
Qed.

(** ** Pages: the round trip *)

(** [Sample.page_alice] is [Page(0)] after a successful [insert_row] of one
    row; it serializes, and [deserialize] raises on the result, because the
    text it cuts out for the row runs four bytes past the row's end. *)
Example round_trip_fails_for_one_row :
  Page.insert_row (Page.__init__ 0) Sample.alice = (true, Sample.page_alice)
  /\ (exists data, Page.serialize Sample.page_alice = Ok data /\ len data = PAGE_SIZE)
  /\ (data ← Page.serialize Sample.page_alice; Page.deserialize data)
     = Raise (JSONDecodeError "Extra data").
Proof.
  split; [reflexivity|]. split.
  - eexists. split; [vm_compute; reflexivity | vm_compute; reflexivity].
  - vm_compute. reflexivity.
Qed.

Lemma py_slice_app {A} (pre rest : list A) (k : Z) :
  0 <= k ->
  py_slice (pre ++ rest) (len pre) (len pre + k) = take (Z.to_nat k) rest.
Proof.
  intros Hk. unfold py_slice, slice_bound, len. rewrite length_app.
  rewrite (proj2 (Z.ltb_ge (Z.of_nat (length pre)) 0)) by lia.
  rewrite (proj2 (Z.ltb_ge (Z.of_nat (length pre) + k) 0)) by lia.
  rewrite (Z.min_l (Z.of_nat (length pre))) by lia.
  rewrite Nat2Z.id, drop_app_length.
  destruct (Z.le_gt_cases k (Z.of_nat (length rest))) as [Hle|Hgt].
  - rewrite Z.min_l by lia. f_equal. lia.
  - rewrite Z.min_r by lia. rewrite !take_ge by lia. reflexivity.
Qed.

Lemma py_slice_head {A} (l : list A) (k : Z) :
  0 <= k -> py_slice l 0 k = take (Z.to_nat k) l.
Proof. intros Hk. apply (py_slice_app [] l k Hk). Qed.

Lemma serialize_rows_acc rs acc :
  Page.serialize_rows rs acc = (body ← Page.serialize_rows rs []; Ok (acc ++ body)).
Proof.
  revert acc. induction rs as [|row rest IH]; intros acc; simpl.
  - rewrite app_nil_r. reflexivity.
  - destruct (struct_pack_I _) as [prefix|]; simpl; [|reflexivity].
    rewrite (IH (acc ++ prefix ++ json_dumps row)), (IH (prefix ++ json_dumps row)).
    destruct (Page.serialize_rows rest []) as [body|]; simpl; [|reflexivity].
    rewrite <- !app_assoc. reflexivity.
Qed.

Lemma serialize_rows_cons row rest body :
  Page.serialize_rows (row :: rest) [] = Ok body ->
  exists tail,
    Page.serialize_rows rest [] = Ok tail
    /\ body = le32 (len (json_dumps row)) ++ json_dumps row ++ tail.
Proof.
  simpl. unfold struct_pack_I. destruct (_ && _); simpl; [|discriminate].
  rewrite serialize_rows_acc.
  destruct (Page.serialize_rows rest []) as [tail|]; simpl; [|discriminate].
  intros [= <-]. exists tail. rewrite <- ?app_assoc. auto.
Qed.

Lemma serialize_rows_length rs body :
  Page.serialize_rows rs [] = Ok body -> len body = Page.rows_size rs.
Proof.
  revert body. induction rs as [|row rest IH]; intros body.
  - intros [= <-]. reflexivity.
  - intros H. apply serialize_rows_cons in H as (tail & Ht & ->).
    apply IH in Ht. cbn [Page.rows_size foldr]. fold (Page.rows_size rest).
    unfold len, le32 in *. rewrite !length_app. simpl. lia.
Qed.

Lemma struct_unpack_pack_III a b c header :
  struct_pack_III a b c = Ok header ->
  struct_unpack_III header = Ok (a, b, c) /\ length header = 12%nat.
Proof.
  unfold struct_pack_III.
  destruct (struct_pack_I a) as [ba|] eqn:Ha; simpl; [|discriminate].
  destruct (struct_pack_I b) as [bb|] eqn:Hb; simpl; [|discriminate].
  destruct (struct_pack_I c) as [bc|] eqn:Hc; simpl; [|discriminate].
  apply struct_unpack_pack_I in Ha as [Ua La], Hb as [Ub Lb], Hc as [Uc Lc].
  intros [= <-].
  assert (length (ba ++ bb ++ bc) = 12%nat) as Hlen by (rewrite !length_app; lia).
  split; [|exact Hlen].
  unfold struct_unpack_III. rewrite bool_decide_eq_true_2 by exact Hlen.
  destruct ba as [|a0 [|a1 [|a2 [|a3 [|]]]]]; try discriminate La.
  destruct bb as [|b0 [|b1 [|b2 [|b3 [|]]]]]; try discriminate Lb.
  destruct bc as [|c0 [|c1 [|c2 [|c3 [|]]]]]; try discriminate Lc.
  cbn [app take drop]. rewrite Ua, Ub, Uc. reflexivity.
Qed.

(** On a reachable page, [num_rows] counts the rows. *)
Lemma reachable_num_rows p : Page.reachable p -> Page.num_rows p = len (Page.rows p).
Proof.
  induction 1 as [pid | p row p' _ IH H | p i new p' _ IH H | p i p' _ IH H].
  - reflexivity.
  - unfold Page.insert_row in H. destruct (negb _); [discriminate|].
    injection H as <-. simpl. unfold len in *. rewrite length_app. simpl. lia.
  - unfold Page.update_row in H. destruct (_ && _); [|discriminate].
    destruct (_ || _); [|discriminate].
    injection H as <-. simpl. unfold len in *. rewrite length_insert. exact IH.
  - unfold Page.delete_row in H. destruct (_ && _) eqn:Hi; [|discriminate].
    injection H as <-. simpl. unfold len in *.
    apply andb_true_iff in Hi as [H0 H1]. apply Z.leb_le in H0. apply Z.ltb_lt in H1.
    rewrite length_delete by (apply lookup_lt_is_Some; unfold len in H1; lia). lia.
Qed.


Lemma struct_unpack_le32 z : 0 <= z < 2 ^ 32 -> struct_unpack_I (le32 z) = Ok z.
Proof.
  intros Hz. apply (struct_unpack_pack_I z). unfold struct_pack_I.
  rewrite (proj2 (Z.leb_le 0 z)), (proj2 (Z.ltb_lt z (2 ^ 32))) by lia. reflexivity.
Qed.

(** What follows the first row on a serialized page has a zero among its
    first four bytes: the padding when the row is the last one, the third
    byte of the next row's length otherwise. *)
Lemma zero_after_first_row (row : pyvalue) (rest : list pyvalue) (tail : list byte) (pad : nat) :
  Page.serialize_rows rest [] = Ok tail ->
  Page.rows_size rest < 65536 ->
  (rest = [] -> pad <> 0%nat) ->
  exists j, (tail ++ replicate pad x00) !! j = Some x00 /\ (j < 4)%nat.
Proof.
  intros Htail Hsize Hpad. destruct rest as [|row2 rest'].
  - injection Htail as <-. exists 0%nat. split; [|lia].
    destruct pad; [exfalso; apply Hpad; reflexivity|]. reflexivity.
  - apply serialize_rows_cons in Htail as (tail' & _ & ->).
    exists 2%nat. split; [|lia].
    rewrite <- app_assoc, lookup_app_l by (unfold le32; simpl; lia).
    apply le32_third_byte. simpl in Hsize.
    pose proof (len_nonneg (json_dumps row2)). pose proof (rows_size_nonneg rest'). lia.
Qed.

Lemma deserialize_rows_first_raises n data offset row_json post :
  py_slice data offset (offset + 4) = le32 (len row_json) ->
  0 <= len row_json < 2 ^ 32 ->
  py_slice data (offset + 4) (offset + 4 + 4 + len row_json)
  = take (Z.to_nat (4 + len row_json)) (row_json ++ post) ->
  (exists j, post !! j = Some x00 /\ (j < 4)%nat) ->
  raises (Page.deserialize_rows (S n) data offset []).
Proof.
  intros Hprefix Hlen Hslice (j & Hj & Hj4). cbn [Page.deserialize_rows].
  rewrite Hprefix, struct_unpack_le32 by exact Hlen. cbn [mbind result_bind].
  rewrite Hslice.
  pose proof (row_text_with_nul (take (Z.to_nat (4 + len row_json)) (row_json ++ post)))
    as Hraise.
  destruct (utf8_decode _) as [s|]; cbn [mbind result_bind] in *; [|exact I].
  destruct (json_loads s); [|exact I].
  exfalso. apply Hraise. apply list_elem_of_In, elem_of_take.
  exists (length row_json + j)%nat. split.
  - rewrite lookup_app_r by lia. rewrite <- Hj. f_equal. lia.
  - unfold len. lia.
Qed.

(** C1 fails.  A page reached by successful calls that holds a row does
    not survive the round trip: [serialize] followed by [deserialize] raises,
    unless the page holds exactly one row and that row ends on the last byte
    of the page. *)
Theorem round_trip_fails (p : Page.t) :
  Page.reachable p ->
  Page.rows p <> [] ->
  1 < len (Page.rows p) \/ Page.free_space_offset p < PAGE_SIZE ->
  raises (data ← Page.serialize p; Page.deserialize data).
Proof.
  intros R Hne Hcase.
  pose proof (reachable_num_rows p R) as Hnum.
  destruct (reachable_accounted p R) as [Hfso Hle].
  destruct (Page.serialize p) as [data|] eqn:Hser; [|exact I]. cbn [mbind result_bind].
  unfold Page.serialize in Hser.
  destruct (struct_pack_III _ _ _) as [header|] eqn:Hh; [|discriminate].
  cbn [mbind result_bind] in Hser.
  destruct (Page.serialize_rows (Page.rows p) []) as [rows_data|] eqn:Hrows; [|discriminate].
  cbn [mbind result_bind] in Hser. injection Hser as <-.
  apply struct_unpack_pack_III in Hh as [Hunpack Hheader].
  pose proof (serialize_rows_length _ _ Hrows) as Hdata.
  destruct (Page.rows p) as [|row rest] eqn:Hrs; [contradiction|].
  apply serialize_rows_cons in Hrows as (tail & Htail & ->).
  cbn [Page.rows_size foldr] in Hfso. fold (Page.rows_size rest) in Hfso.
  pose proof (len_nonneg (json_dumps row)) as HL.
  pose proof (rows_size_nonneg rest) as Hrest.
  unfold HEADER_SIZE, PAGE_SIZE in *.
  set (pad := Z.to_nat (4096 - len (header ++ le32 (len (json_dumps row)) ++ json_dumps row ++ tail))).
  set (post := tail ++ replicate pad x00).
  assert (Hlayout : (header ++ le32 (len (json_dumps row)) ++ json_dumps row ++ tail)
                    ++ replicate pad x00
                    = header ++ le32 (len (json_dumps row)) ++ json_dumps row ++ post).
  { unfold post. rewrite <- !app_assoc. reflexivity. }
  rewrite Hlayout. unfold Page.deserialize, HEADER_SIZE.
  rewrite py_slice_head by lia. change (Z.to_nat 12) with 12%nat.
  rewrite take_app_length' by (symmetry; exact Hheader).
  rewrite Hunpack. cbn [mbind result_bind].
  assert (exists n, Z.to_nat (Page.num_rows p) = S n) as [n ->].
  { exists (length rest). rewrite Hnum. unfold len. simpl. lia. }
  match goal with
  | |- raises (_ ≫= ?k) => 
      assert (raises (Page.deserialize_rows (S n)
                        (header ++ le32 (len (json_dumps row)) ++ json_dumps row ++ post) 12 []))
        as Hraise
  end.
  2:{ destruct (Page.deserialize_rows _ _ _ _); [contradiction | exact I]. }
  assert (len header = 12) as Hh12 by (unfold len; lia).
  apply (deserialize_rows_first_raises n _ 12 (json_dumps row) post).
  - rewrite <- Hh12. rewrite (py_slice_app header _ 4) by lia.
    change (Z.to_nat 4) with 4%nat. apply take_app_length'. reflexivity.
  - lia.
  - rewrite (app_assoc header). replace (12 + 4) with (len (header ++ le32 (len (json_dumps row))))
      by (unfold len; rewrite length_app; unfold le32; simpl; lia).
    replace (len (header ++ le32 (len (json_dumps row))) + 4 + len (json_dumps row))
      with (len (header ++ le32 (len (json_dumps row))) + (4 + len (json_dumps row))) by lia.
    apply py_slice_app. lia.
  - unfold post. apply (zero_after_first_row row rest tail pad Htail); [lia|].
    intros ->. destruct Hcase as [Hmany|Hfree]; [unfold len in Hmany; simpl in Hmany; lia|].
    injection Htail as <-. unfold pad, len in *. rewrite !length_app in *.
    unfold le32 in *. simpl in *. lia.
Qed.

Lemma round_trip_fails_witness :
  Page.reachable Sample.page_alice
  /\ raises (data ← Page.serialize Sample.page_alice; Page.deserialize data).
Proof.
  assert (R : Page.reachable Sample.page_alice).
  { apply (Page.reachable_insert (Page.__init__ 0) Sample.alice).
    - apply Page.reachable_new.
    - reflexivity. }
  split; [exact R|].
  apply (round_trip_fails Sample.page_alice R).
  - discriminate.
  - right. vm_compute. reflexivity.
Defined.

(** The header alone does survive: a new page comes back as it was. *)
Lemma round_trip_new_page (page_id : Z) :
  0 <= page_id < 2 ^ 32 ->
  (data ← Page.serialize (Page.__init__ page_id); Page.deserialize data)
  = Ok (Page.__init__ page_id).
Proof.
  intros Hid. unfold Page.serialize. cbn [Page.__init__ Page.page_id Page.num_rows
    Page.free_space_offset Page.rows Page.serialize_rows].
  destruct (struct_pack_III page_id 0 HEADER_SIZE) as [header|] eqn:Hh.
  - apply struct_unpack_pack_III in Hh as [Hunpack Hheader].
    cbn [mbind result_bind]. unfold Page.deserialize, HEADER_SIZE.
    rewrite app_nil_r, py_slice_head by lia. change (Z.to_nat 12) with 12%nat.
    rewrite take_app_length' by (symmetry; exact Hheader).
    rewrite Hunpack. reflexivity.
  - exfalso. unfold struct_pack_III, struct_pack_I in Hh.
    rewrite (proj2 (Z.leb_le 0 page_id)), (proj2 (Z.ltb_lt page_id (2 ^ 32))) in Hh by lia.
    discriminate Hh.
Qed.

(** The exception is real: a page whose single row ends on the last byte of
    the page comes back as it was, the slice being cut short by the end of
    the data. *)
Example round_trip_full_page :
  let p := snd (Page.insert_row (Page.__init__ 0) (Sample.filling 120)) in
  Page.free_space_offset p = PAGE_SIZE
  /\ (data ← Page.serialize p; Page.deserialize data) = Ok p.
Proof. vm_compute. split; reflexivity. Qed.

(** ** Reading a page *)

Lemma f_read_slice (content : list byte) (offset : Z) :
  0 <= offset -> offset + PAGE_SIZE <= len content ->
  FileManager.f_read content offset PAGE_SIZE = py_slice content offset (offset + PAGE_SIZE)
  /\ len (FileManager.f_read content offset PAGE_SIZE) = PAGE_SIZE.
Proof.
  intros H0 Hlen. unfold FileManager.f_read, py_slice, slice_bound, len in *.
  rewrite (proj2 (Z.ltb_ge offset 0)) by lia.
  rewrite (proj2 (Z.ltb_ge (offset + PAGE_SIZE) 0)) by (unfold PAGE_SIZE; lia).
  rewrite !Z.min_l by (unfold PAGE_SIZE in *; lia).
  replace (offset + PAGE_SIZE - offset) with PAGE_SIZE by lia.
  split; [reflexivity|].
  rewrite length_take, length_drop. unfold PAGE_SIZE in *. lia.
Qed.

(** C8, as the code has it.  [read_page] never raises.  It returns nothing
    when the file does not exist, when [page_id * PAGE_SIZE + PAGE_SIZE]
    exceeds the length of the file, when [page_id] is negative, and when
    [Page.deserialize] raises on the [PAGE_SIZE] bytes at
    [page_id * PAGE_SIZE]; otherwise it returns the page deserialized from
    those bytes. *)
Theorem read_page_spec (self : FileManager.t) (fs : disk) (table_name : pystr) (page_id : Z) :
  FileManager.read_page self fs table_name page_id
  = match fs !! FileManager._get_file_path self table_name with
    | None => None
    | Some content =>
        let offset := page_id * PAGE_SIZE in
        if offset + PAGE_SIZE >? len content then None
        else if page_id <? 0 then None
        else match Page.deserialize (py_slice content offset (offset + PAGE_SIZE)) with
             | Ok page => Some page
             | Raise _ => None
             end
    end.
Proof.
  unfold FileManager.read_page.
  destruct (fs !! _) as [content|]; [|reflexivity]. cbv zeta.
  destruct (page_id * PAGE_SIZE + PAGE_SIZE >? len content) eqn:Hbig; [reflexivity|].
  rewrite Z.gtb_ltb in Hbig. apply Z.ltb_ge in Hbig.
  unfold FileManager.f_seek.
  destruct (page_id <? 0) eqn:Hneg.
  - apply Z.ltb_lt in Hneg.
    rewrite (proj2 (Z.ltb_lt (page_id * PAGE_SIZE) 0)) by (unfold PAGE_SIZE; lia).
    reflexivity.
  - apply Z.ltb_ge in Hneg.
    rewrite (proj2 (Z.ltb_ge (page_id * PAGE_SIZE) 0)) by (unfold PAGE_SIZE; lia).
    cbn [mbind result_bind].
    destruct (f_read_slice content (page_id * PAGE_SIZE)) as [Hread Hfull];
      [unfold PAGE_SIZE; lia | exact Hbig |].
    rewrite Hfull, Z.ltb_irrefl, Hread.
    destruct (Page.deserialize _); reflexivity.
Qed.

(** C8, as the claim has it, fails: the file exists and holds one complete
    page, all [PAGE_SIZE] bytes of page 0 can be read, and [read_page]
    returns nothing, because [Page.deserialize] raises on them. *)
Lemma read_page_absent_for_complete_page :
  Sample.disk_garbled !! FileManager._get_file_path Sample.fm Sample.users
  = Some Sample.garbled
  /\ 0 * PAGE_SIZE + PAGE_SIZE <= len Sample.garbled
  /\ len (FileManager.f_read Sample.garbled (0 * PAGE_SIZE) PAGE_SIZE) = PAGE_SIZE
  /\ Page.deserialize Sample.garbled = Raise (JSONDecodeError "Expecting value")
  /\ FileManager.read_page Sample.fm Sample.disk_garbled Sample.users 0 = None.
Proof. vm_compute. repeat split; congruence. Qed.

(** ** Columns *)

(** C10. A column declared [INTEGER] accepts both booleans, and a column
    declared [REAL] accepts every integer. *)
Theorem validate_value_accepts_subtypes (ci cr : Column.t) (b : bool) (z : Z) :
  Column.data_type ci = str "INTEGER" ->
  Column.data_type cr = str "REAL" ->
  Column.validate_value ci (PyBool b) = true
  /\ Column.validate_value cr (PyInt z) = true.
Proof.
  intros Hi Hr. unfold Column.validate_value. rewrite Hi, Hr. split; reflexivity.
Qed.

Lemma validate_value_accepts_subtypes_witness :
  Column.validate_value Sample.id_column (PyBool true) = true
  /\ Column.validate_value Sample.price_column (PyInt 3) = true.
Proof.
  apply (validate_value_accepts_subtypes Sample.id_column Sample.price_column true 3);
    reflexivity.
Defined.

(** ** Tables: what the methods do *)

Lemma bind_run {A B} (m : Table.M A) (k : A -> Table.M B) (s : Table.state) :
  (m ≫= k) s
  = match m s with
    | (Ok a, s') => k a s'
    | (Raise e, s') => (Raise e, s')
    end.
Proof. reflexivity. Qed.

Lemma getattr_run {A} attr (field : Table.t -> option A) (s : Table.state) :
  Table.getattr attr field s
  = match field (fst s) with
    | Some a => (Ok a, s)
    | None => (Raise (AttributeError "Table" attr), s)
    end.
Proof.
  unfold Table.getattr. rewrite bind_run. simpl. destruct (field (fst s)); reflexivity.
Qed.

(** One step of a method: run the first statement on the state at hand. *)
Ltac run :=
  repeat first
    [ rewrite bind_run
    | progress unfold mret, Table.M_ret
    | progress cbn [Table.get_self Table.get_disk Table.set_self Table.set_disk Table.lift
                    Table.raise Table.undefined_name Table.call_undefined
                    Table.validate_row Table._get_primary_key_value fst snd] ].


(** C6. [Table] has no [insert_row]: the name is none of its methods, and
    calling it on any table raises [AttributeError] and changes nothing. *)
Theorem insert_row_is_not_defined :
  ~ In "insert_row"%string Table.methods
  /\ forall (row : pyvalue) (s : Table.state),
       Table.insert_row row s = (Raise (AttributeError "Table" "insert_row"), s).
Proof.
  split.
  - unfold Table.methods. simpl. intros H.
    repeat (destruct H as [H|H]; [discriminate H|]). exact H.
  - reflexivity.
Qed.

(** Every path through [delete_by_primary_key]: it reports a table without a
    primary key, a value that is not indexed and a page that cannot be read,
    and raises everywhere else. *)
Lemma delete_by_primary_key_run (pk : pyvalue) (self : Table.t) (fs : disk) :
  Table.delete_by_primary_key pk (self, fs)
  = (if bool_decide (Table.primary_key_cols self = [])
     then Ok (false, Some "Table has no primary key"%string)
     else match Table.primary_key_index self with
          | None => Raise (AttributeError "Table" "primary_key_index")
          | Some index =>
              match index_get index pk with
              | Raise e => Raise e
              | Ok None => Ok (false, Some "Row not found"%string)
              | Ok (Some (page_id, _)) =>
                  match FileManager.read_page (Table.file_manger self) fs
                          (Table.name self) page_id with
                  | None => Ok (false, Some "page not found"%string)
                  | Some _ => Raise (NameError "row")
                  end
              end
          end,
     (self, fs)).
Proof.
  unfold Table.delete_by_primary_key. run.
  destruct (bool_decide (Table.primary_key_cols self = [])); [reflexivity|].
  rewrite bind_run, getattr_run. cbn [fst].
  destruct (Table.primary_key_index self) as [index|]; [|reflexivity].
  run.
  destruct (index_get index pk) as [[[page_id row_index]|]|e]; try reflexivity.
  destruct (FileManager.read_page _ _ _ _); [run|]; reflexivity.
Qed.

(** C4. [delete_by_primary_key] reports a missing primary key; but on a table
    with a primary key it raises [AttributeError] when the index was never
    assigned, as after [__init__], and, when the index is there, the value
    indexed and its page read, it raises [NameError] instead of deleting.  No
    call returns [(True, None)], and no call changes the table or the disk. *)
Theorem delete_by_primary_key_never_deletes (pk : pyvalue) (self : Table.t) (fs : disk) :
  (Table.primary_key_cols self = [] ->
     Table.delete_by_primary_key pk (self, fs)
     = (Ok (false, Some "Table has no primary key"%string), (self, fs)))
  /\ (Table.primary_key_cols self <> [] ->
      Table.primary_key_index self = None ->
      Table.delete_by_primary_key pk (self, fs)
      = (Raise (AttributeError "Table" "primary_key_index"), (self, fs)))
  /\ (forall index page_id row_index page,
        Table.primary_key_cols self <> [] ->
        Table.primary_key_index self = Some index ->
        index_get index pk = Ok (Some (page_id, row_index)) ->
        FileManager.read_page (Table.file_manger self) fs (Table.name self) page_id
        = Some page ->
        Table.delete_by_primary_key pk (self, fs) = (Raise (NameError "row"), (self, fs)))
  /\ snd (Table.delete_by_primary_key pk (self, fs)) = (self, fs)
  /\ forall msg, fst (Table.delete_by_primary_key pk (self, fs)) <> Ok (true, msg).
Proof.
  rewrite delete_by_primary_key_run. repeat split.
  - intros ->. reflexivity.
  - intros Hpk ->. rewrite bool_decide_eq_false_2 by exact Hpk. reflexivity.
  - intros index page_id row_index page Hpk -> Hget Hread.
    rewrite bool_decide_eq_false_2 by exact Hpk. rewrite Hget, Hread. reflexivity.
  - simpl. intros msg.
    destruct (bool_decide _); [discriminate|].
    destruct (Table.primary_key_index self) as [index|]; [|discriminate].
    destruct (index_get index pk) as [[[page_id row_index]|]|e]; try discriminate.
    destruct (FileManager.read_page _ _ _ _); discriminate.
Qed.

Lemma delete_by_primary_key_never_deletes_witness :
  Table.delete_by_primary_key (PyInt 1) (Sample.users_table, ∅)
  = (Raise (AttributeError "Table" "primary_key_index"), (Sample.users_table, ∅))
  /\ Table.delete_by_primary_key (PyInt 1) (Sample.users_indexed, Sample.disk_blank_page)
     = (Raise (NameError "row"), (Sample.users_indexed, Sample.disk_blank_page)).
Proof.
  split.
  - apply (proj1 (proj2 (delete_by_primary_key_never_deletes
                           (PyInt 1) Sample.users_table ∅))).
    + discriminate.
    + reflexivity.
  - apply (proj1 (proj2 (proj2 (delete_by_primary_key_never_deletes
                                  (PyInt 1) Sample.users_indexed Sample.disk_blank_page)))
             [(PyInt 1, (0, 0))] 0 0 (Page.__init__ 0)).
    + discriminate.
    + reflexivity.
    + reflexivity.
    + vm_compute. reflexivity.
Defined.

(** Every path through [update_by_primary_key]: none reaches the page update. *)
Lemma update_by_primary_key_run (pk : pyvalue) (updates : list (pystr * pyvalue))
    (self : Table.t) (fs : disk) :
  Table.update_by_primary_key pk updates (self, fs)
  = (if bool_decide (Table.primary_key_cols self = [])
     then Ok (false, Some "Table has no primary key"%string)
     else match Table.primary_key_index self with
          | None => Raise (AttributeError "Table" "primary_key_index")
          | Some index =>
              match index_get index pk with
              | Raise e => Raise e
              | Ok None => Ok (false, Some "Row not found"%string)
              | Ok (Some (page_id, row_index)) =>
                  match Table.file_manager self with
                  | None => Raise (AttributeError "Table" "file_manager")
                  | Some fm =>
                      match FileManager.read_page fm fs (Table.name self) page_id with
                      | None => Ok (false, Some "Page not found"%string)
                      | Some page =>
                          let old_row := Page.get_row page row_index in
                          if is_None old_row
                          then Ok (false, Some "Row not found in page"%string)
                          else
                            match new_row ← py_copy old_row; py_update new_row updates with
                            | Raise e => Raise e
                            | Ok _ => Raise (AttributeError "Table" "validate_row")
                            end
                      end
                  end
              end
          end,
     (self, fs)).
Proof.
  unfold Table.update_by_primary_key. run.
  destruct (bool_decide (Table.primary_key_cols self = [])); [reflexivity|].
  rewrite bind_run, getattr_run. cbn [fst].
  destruct (Table.primary_key_index self) as [index|]; [|reflexivity].
  run.
  destruct (index_get index pk) as [[[page_id row_index]|]|e]; try reflexivity.
  rewrite bind_run, getattr_run. cbn [fst].
  destruct (Table.file_manager self) as [fm|]; [|reflexivity].
  destruct (FileManager.read_page _ _ _ _) as [page|]; [|reflexivity].
  cbv zeta.
  destruct (is_None (Page.get_row page row_index)); [reflexivity|].
  run.
  destruct (py_copy (Page.get_row page row_index)) as [new_row|e]; [|reflexivity].
  run. cbn [mbind result_bind].
  destruct (py_update new_row updates) as [new_row'|e]; [|reflexivity].
  run. reflexivity.
Qed.

(** C3. [update_by_primary_key] updates nothing.  On a table that declares a
    primary key it raises [AttributeError] when the index was never assigned,
    as after [__init__]; with the index there and the value indexed, it raises
    [AttributeError] where it reads [self.file_manager]; with that attribute
    supplied too it stops no later than at [self.validate_row].  No call
    returns [(True, None)], and no call changes the table or the disk. *)
Theorem update_by_primary_key_never_updates
    (pk : pyvalue) (updates : list (pystr * pyvalue)) (self : Table.t) (fs : disk) :
  (Table.primary_key_cols self <> [] ->
   Table.primary_key_index self = None ->
   Table.update_by_primary_key pk updates (self, fs)
   = (Raise (AttributeError "Table" "primary_key_index"), (self, fs)))
  /\ (forall index location,
        Table.primary_key_cols self <> [] ->
        Table.primary_key_index self = Some index ->
        index_get index pk = Ok (Some location) ->
        Table.file_manager self = None ->
        Table.update_by_primary_key pk updates (self, fs)
        = (Raise (AttributeError "Table" "file_manager"), (self, fs)))
  /\ snd (Table.update_by_primary_key pk updates (self, fs)) = (self, fs)
  /\ forall msg, fst (Table.update_by_primary_key pk updates (self, fs)) <> Ok (true, msg).
Proof.
  rewrite update_by_primary_key_run. repeat split.
  - intros Hpk ->. rewrite bool_decide_eq_false_2 by exact Hpk. reflexivity.
  - intros index [page_id row_index] Hpk -> Hget ->.
    rewrite bool_decide_eq_false_2 by exact Hpk. rewrite Hget. reflexivity.
  - simpl. intros msg.
    destruct (bool_decide _); [discriminate|].
    destruct (Table.primary_key_index self) as [index|]; [|discriminate].
    destruct (index_get index pk) as [[[page_id row_index]|]|e]; try discriminate.
    destruct (Table.file_manager self) as [fm|]; [|discriminate].
    destruct (FileManager.read_page _ _ _ _) as [page|]; [|discriminate].
    cbv zeta. destruct (is_None _); [discriminate|].
    destruct (_ ≫= _); discriminate.
Qed.

Lemma update_by_primary_key_never_updates_witness :
  Table.update_by_primary_key (PyInt 1) [(str "name", PyStr (str "Carol"))]
    (Sample.users_table, ∅)
  = (Raise (AttributeError "Table" "primary_key_index"), (Sample.users_table, ∅))
  /\ Table.update_by_primary_key (PyInt 1) [(str "name", PyStr (str "Carol"))]
       (Sample.users_indexed, Sample.disk_blank_page)
     = (Raise (AttributeError "Table" "file_manager"),
        (Sample.users_indexed, Sample.disk_blank_page)).
Proof.
  split.
  - apply (proj1 (update_by_primary_key_never_updates
                    (PyInt 1) [(str "name", PyStr (str "Carol"))] Sample.users_table ∅)).
    + discriminate.
    + reflexivity.
  - apply (proj1 (proj2 (update_by_primary_key_never_updates
                           (PyInt 1) [(str "name", PyStr (str "Carol"))]
                           Sample.users_indexed Sample.disk_blank_page))
             [(PyInt 1, (0, 0))] (0, 0)).
    + discriminate.
    + reflexivity.
    + reflexivity.
    + reflexivity.
Defined.

(** ** Tables: construction over an existing file *)

Lemma set_next_page_id_same (self : Table.t) :
  Table.set_next_page_id (Table.next_page_id self) self = self.
Proof. destruct self; reflexivity. Qed.

(** The first loop of [_load_indexes] only moves [next_page_id]. *)
Lemma load_indexes_first_loop (pages : list Page.t) (self : Table.t) (fs : disk) :
  Table.for_each pages (fun page =>
      self ← Table.get_self;
      Table.set_self
        (Table.set_next_page_id (Z.max (Table.next_page_id self) (Page.page_id page + 1)) self))
    (self, fs)
  = (Ok (),
     (Table.set_next_page_id
        (fold_left (fun n page => Z.max n (Page.page_id page + 1)) pages
                   (Table.next_page_id self)) self, fs)).
Proof.
  revert self. induction pages as [|page pages IH]; intros self; simpl.
  - rewrite set_next_page_id_same. reflexivity.
  - run. rewrite IH. destruct self; reflexivity.
Qed.

(** [_load_indexes] on an object without its index attributes, as [__init__]
    calls it: after the first loop it looks at the last page only, and at its
    first row only. *)
Lemma load_indexes_run (self : Table.t) (fs : disk) :
  Table.unique_indexes self = None ->
  let pages := FileManager.scan_all_pages (Table.file_manger self) fs (Table.name self) in
  let self' :=
    Table.set_next_page_id
      (fold_left (fun n page => Z.max n (Page.page_id page + 1)) pages
                 (Table.next_page_id self)) self in
  Table._load_indexes (self, fs)
  = (match last pages with
     | None => Raise (UnboundLocalError "page")
     | Some page =>
         match Page.rows page with
         | [] => Ok None
         | _ :: _ =>
             if negb (bool_decide (Table.primary_key_cols self = []))
             then Raise (AttributeError "Table" "_get_primary_key_value")
             else match Table.unique_cols self with
                  | [] => Ok (Some (true, None))
                  | _ :: _ => Raise (AttributeError "Table" "unique_indexes")
                  end
         end
     end,
     (self', fs)).
Proof.
  intros Hu pages self'. unfold Table._load_indexes. run.
  fold pages. rewrite load_indexes_first_loop. fold self'. run.
  assert (Hpk' : Table.primary_key_cols self' = Table.primary_key_cols self)
    by (destruct self; reflexivity).
  assert (Hcols' : Table.unique_cols self' = Table.unique_cols self)
    by (destruct self; reflexivity).
  assert (Hu' : Table.unique_indexes self' = None)
    by (rewrite <- Hu; destruct self; reflexivity).
  clearbody self'.
  destruct (last pages) as [page|]; [|reflexivity]. run.
  destruct (Page.rows page) as [|row rest]; [reflexivity|].
  unfold Table.enumerate. simpl imap. cbn [Table.for_each_return]. run.
  rewrite Hpk', Hcols'.
  destruct (bool_decide (Table.primary_key_cols self = [])); cbn [negb Table.when].
  - run.
    destruct (Table.unique_cols self) as [|col cols] eqn:Hcols; cbn [Table.for_each].
    + run. reflexivity.
    + run. rewrite Hcols', bool_decide_eq_true_2 by apply list_elem_of_here.
      cbn [Table.when]. unfold Table.unique_add. rewrite bind_run, getattr_run.
      cbn [fst]. rewrite Hu'. reflexivity.
  - run. reflexivity.
Qed.

Lemma deserialize_rows_length n data offset rs rs' :
  Page.deserialize_rows n data offset rs = Ok rs' ->
  length rs' = (length rs + n)%nat.
Proof.
  revert offset rs. induction n as [|n IH]; intros offset rs; simpl.
  - intros [= <-]. lia.
  - destruct (struct_unpack_I _) as [row_length|]; simpl; [|discriminate].
    destruct (utf8_decode _) as [row_json|]; simpl; [|discriminate].
    destruct (json_loads _) as [row|]; simpl; [|discriminate].
    intros H. apply IH in H. rewrite H, length_app. simpl. lia.
Qed.

(** A page that [deserialize] returns has as many rows as its header says. *)
Lemma deserialize_row_count data p :
  Page.deserialize data = Ok p ->
  length (Page.rows p) = Z.to_nat (Page.num_rows p).
Proof.
  unfold Page.deserialize.
  destruct (struct_unpack_III _) as [[[page_id num_rows] fso]|]; simpl; [|discriminate].
  destruct (Page.deserialize_rows _ _ _ _) as [rs|] eqn:E; simpl; [|discriminate].
  intros [= <-]. simpl. apply deserialize_rows_length in E. exact E.
Qed.

Lemma read_page_deserialized fm fs name page_id p :
  FileManager.read_page fm fs name page_id = Some p ->
  exists data, Page.deserialize data = Ok p.
Proof.
  unfold FileManager.read_page.
  destruct (fs !! _) as [content|]; [|discriminate].
  destruct (_ >? _); [discriminate|].
  destruct (FileManager.f_seek _); simpl; [|discriminate].
  destruct (_ <? _); [discriminate|].
  destruct (Page.deserialize _) as [page|] eqn:E; simpl; [|discriminate].
  intros [= <-]. eauto.
Qed.

(** Every page [scan_all_pages] yields holds a row. *)
Lemma scan_all_pages_rows fm fs name p :
  p ∈ FileManager.scan_all_pages fm fs name -> Page.rows p <> [].
Proof.
  unfold FileManager.scan_all_pages. intros H.
  apply list_elem_of_omap in H as (page_id & _ & H).
  destruct (FileManager.read_page fm fs name page_id) as [page|] eqn:E; [|discriminate].
  destruct (Page.num_rows page >? 0) eqn:Hn; [|discriminate].
  injection H as ->.
  apply read_page_deserialized in E as [data E].
  apply deserialize_row_count in E. apply Z.gtb_lt in Hn.
  intros Hnil. rewrite Hnil in E. simpl in E. lia.
Qed.

(** [__init__] in one piece: the object without the file, and with the file
    the outcome of [_load_indexes] on that object. *)
Lemma init_run name columns fm fs :
  let self :=
    {| Table.name := name;
       Table.columns := fold_left (fun d col => dict_set d (Column.name col) col) columns [];
       Table.column_order := map Column.name columns;
       Table.file_manger := fm;
       Table.primary_key_cols := map Column.name (List.filter Column.primary_key columns);
       Table.unique_cols :=
         map Column.name
             (List.filter (fun col => Column.unique col || Column.primary_key col) columns);
       Table.next_page_id := 0;
       Table.primary_key_index := None;
       Table.unique_indexes := None;
       Table.file_manager := None |} in
  let pages := FileManager.scan_all_pages fm fs name in
  Table.__init__ name columns fm fs
  = if FileManager.table_exists fm fs name then
      match last pages with
      | None => Raise (UnboundLocalError "page")
      | Some _ =>
          if negb (bool_decide (Table.primary_key_cols self = []))
          then Raise (AttributeError "Table" "_get_primary_key_value")
          else match Table.unique_cols self with
               | [] => Ok (Table.set_next_page_id
                             (fold_left (fun n page => Z.max n (Page.page_id page + 1))
                                        pages 0) self)
               | _ :: _ => Raise (AttributeError "Table" "unique_indexes")
               end
      end
    else Ok self.
Proof.
  intros self pages. unfold Table.__init__. fold self.
  destruct (FileManager.table_exists fm fs name); [|reflexivity].
  rewrite load_indexes_run by reflexivity. cbv zeta.
  change (FileManager.scan_all_pages (Table.file_manger self) fs (Table.name self))
    with pages.
  destruct (last pages) as [page|] eqn:Hlast; [|reflexivity].
  pose proof (scan_all_pages_rows _ _ _ _ (last_Some_elem_of _ _ Hlast)) as Hrows.
  destruct (Page.rows page) as [|row rest]; [contradiction|].
  destruct (negb _); [reflexivity|].
  destruct (Table.unique_cols self); reflexivity.
Qed.

Lemma primary_key_cols_nonempty (columns : list Column.t) col :
  In col columns -> Column.primary_key col = true ->
  map Column.name (List.filter Column.primary_key columns) <> [].
Proof.
  intros Hin Hpk Hnil. apply map_eq_nil in Hnil.
  assert (In col (List.filter Column.primary_key columns)) as H
    by (apply filter_In; auto).
  rewrite Hnil in H. exact H.
Qed.

(** The rebuild with the index attributes supplied: both pages are scanned
    and [next_page_id] moves past them, [select_all] returns both rows, and
    the unique index receives the row of the last page only. *)
Example load_indexes_last_page_only :
  let '(r, (self, _)) := Table._load_indexes (Sample.letters_table, Sample.disk_two_pages) in
  r = Ok (Some (true, None))
  /\ Table.next_page_id self = 2
  /\ Table.select_all self Sample.disk_two_pages = [Sample.filling 120; Sample.filling 121]
  /\ Table.unique_indexes self = Some [(str "a", [PyStr (replicate 4071 121%N)])].
Proof. vm_compute. repeat split; reflexivity. Qed.

(** C2. Over a file that exists, [__init__] builds no index for a table that
    declares a primary key: it raises, [UnboundLocalError] when the scan
    yields no page and [AttributeError] at the first row of the last page
    otherwise. *)
Theorem init_over_existing_file_raises
    (name : pystr) (columns : list Column.t) (fm : FileManager.t) (fs : disk)
    (col : Column.t) :
  FileManager.table_exists fm fs name = true ->
  In col columns -> Column.primary_key col = true ->
  Table.__init__ name columns fm fs
  = match last (FileManager.scan_all_pages fm fs name) with
    | None => Raise (UnboundLocalError "page")
    | Some _ => Raise (AttributeError "Table" "_get_primary_key_value")
    end.
Proof.
  intros Hex Hin Hpk. rewrite init_run. cbv zeta. rewrite Hex.
  destruct (last _); [|reflexivity]. cbn [Table.primary_key_cols].
  rewrite bool_decide_eq_false_2; [reflexivity|].
  eapply primary_key_cols_nonempty; eauto.
Qed.

Lemma init_over_existing_file_raises_witness :
  Table.__init__ Sample.users [Sample.id_column; Sample.name_column] Sample.fm
    Sample.disk_empty_file
  = Raise (UnboundLocalError "page").
Proof.
  apply (init_over_existing_file_raises Sample.users
           [Sample.id_column; Sample.name_column] Sample.fm Sample.disk_empty_file
           Sample.id_column).
  - vm_compute. reflexivity.
  - left. reflexivity.
  - reflexivity.
Defined.

(** C5. On a table that [__init__] returned for a schema with a primary key,
    [select_by_primary_key] raises [AttributeError] for every value: the
    index it reads was never created. *)
Theorem select_by_primary_key_new_table_raises
    (name : pystr) (columns : list Column.t) (fm : FileManager.t) (fs : disk)
    (col : Column.t) (t : Table.t) (pk : pyvalue) (fs' : disk) :
  Table.__init__ name columns fm fs = Ok t ->
  In col columns -> Column.primary_key col = true ->
  Table.select_by_primary_key pk (t, fs')
  = (Raise (AttributeError "Table" "primary_key_index"), (t, fs')).
Proof.
  intros Hinit Hin Hpk.
  pose proof (primary_key_cols_nonempty columns col Hin Hpk) as Hne.
  assert (Table.primary_key_cols t <> [] /\ Table.primary_key_index t = None) as [Hcols Hidx].
  { rewrite init_run in Hinit. cbv zeta in Hinit.
    destruct (FileManager.table_exists fm fs name).
    - destruct (last _); [|discriminate].
      destruct (negb _); [discriminate|].
      destruct (Table.unique_cols _); [|discriminate].
      injection Hinit as <-. split; [exact Hne | reflexivity].
    - injection Hinit as <-. split; [exact Hne | reflexivity]. }
  unfold Table.select_by_primary_key. run.
  rewrite bool_decide_eq_false_2 by exact Hcols.
  rewrite bind_run, getattr_run. cbn [fst]. rewrite Hidx. reflexivity.
Qed.

Lemma select_by_primary_key_new_table_raises_witness :
  Table.__init__ Sample.users [Sample.id_column; Sample.name_column] Sample.fm ∅
  = Ok Sample.users_table
  /\ Table.select_by_primary_key (PyInt 1) (Sample.users_table, ∅)
     = (Raise (AttributeError "Table" "primary_key_index"), (Sample.users_table, ∅)).
Proof.
  assert (Table.__init__ Sample.users [Sample.id_column; Sample.name_column] Sample.fm ∅
          = Ok Sample.users_table) as Hinit by (vm_compute; reflexivity).
  split; [exact Hinit|].
  apply (select_by_primary_key_new_table_raises Sample.users
           [Sample.id_column; Sample.name_column] Sample.fm ∅ Sample.id_column).
  - exact Hinit.
  - left. reflexivity.
  - reflexivity.
Defined.

(** * Further properties *)

(** ** Pages: slots *)

Lemma get_row_lookup (p : Page.t) (i : nat) :
  Page.get_row p (Z.of_nat i) = default PyNone (Page.rows p !! i).
Proof.
  unfold Page.get_row, len. rewrite Nat2Z.id.
  destruct (Page.rows p !! i) as [row|] eqn:E.
  - pose proof (lookup_lt_Some _ _ _ E).
    rewrite (proj2 (Z.leb_le 0 (Z.of_nat i))) by lia.
    rewrite (proj2 (Z.ltb_lt (Z.of_nat i) _)) by lia. simpl.
    rewrite list_lookup_total_alt, E. reflexivity.
  - apply lookup_ge_None in E.
    rewrite (proj2 (Z.ltb_ge (Z.of_nat i) _)) by lia.
    rewrite andb_false_r. reflexivity.
Qed.

Lemma get_row_nonneg (p : Page.t) (i : Z) :
  0 <= i -> Page.get_row p i = default PyNone (Page.rows p !! Z.to_nat i).
Proof. intros Hi. rewrite <- (Z2Nat.id i) at 1 by lia. apply get_row_lookup. Qed.

Lemma get_row_negative (p : Page.t) (i : Z) : i < 0 -> Page.get_row p i = PyNone.
Proof.
  intros Hi. unfold Page.get_row. rewrite (proj2 (Z.leb_gt 0 i)) by lia. reflexivity.
Qed.

Lemma valid_slot (rs : list pyvalue) (i : Z) :
  (0 <=? i) && (i <? len rs) = true <-> 0 <= i < len rs.
Proof. rewrite andb_true_iff, Z.leb_le, Z.ltb_lt. reflexivity. Qed.

(** X1. A successful [insert_row] appends: the new row is read back at the
    slot that was the number of rows, every earlier slot reads as before, and
    [num_rows] grows by one; the page id does not change. *)
Theorem insert_row_appends (p p' : Page.t) (row : pyvalue) :
  Page.insert_row p row = (true, p') ->
  Page.rows p' = Page.rows p ++ [row]
  /\ Page.get_row p' (len (Page.rows p)) = row
  /\ (forall i, 0 <= i < len (Page.rows p) -> Page.get_row p' i = Page.get_row p i)
  /\ Page.num_rows p' = Page.num_rows p + 1
  /\ Page.page_id p' = Page.page_id p.
Proof.
  unfold Page.insert_row. destruct (negb _); [discriminate|]. intros [= <-].
  cbn [Page.rows Page.num_rows Page.page_id]. repeat split.
  - unfold len. rewrite get_row_lookup. cbn [Page.rows].
    rewrite lookup_app_r by lia. rewrite Nat.sub_diag. reflexivity.
  - intros i Hi. rewrite <- (Z2Nat.id i) by lia. rewrite !get_row_lookup.
    cbn [Page.rows]. rewrite lookup_app_l by (unfold len in Hi; lia). reflexivity.
Qed.

Lemma insert_row_appends_witness :
  Page.get_row Sample.page_alice 0 = Sample.alice
  /\ Page.num_rows Sample.page_alice = 1.
Proof.
  destruct (insert_row_appends (Page.__init__ 0) Sample.page_alice Sample.alice eq_refl)
    as (_ & Hget & _ & Hnum & _).
  split; [exact Hget | exact Hnum].
Defined.

(** X2. The largest row a page takes has [PAGE_SIZE - HEADER_SIZE - 4 = 4080]
    bytes of JSON: a new page accepts a row exactly when its serialization is
    no longer than that, and a reachable page refuses every longer row and is
    left as it was. *)
Theorem insert_row_capacity (p : Page.t) (page_id : Z) (row : pyvalue) :
  (fst (Page.insert_row (Page.__init__ page_id) row) = true
   <-> len (json_dumps row) <= 4080)
  /\ (Page.reachable p -> 4080 < len (json_dumps row) ->
      Page.insert_row p row = (false, p)).
Proof.
  split.
  - unfold Page.insert_row, Page.can_fit. cbn [Page.free_space_offset Page.__init__].
    unfold PAGE_SIZE, HEADER_SIZE.
    destruct (4096 - 12 >=? len (json_dumps row) + 4) eqn:E; simpl.
    + apply Z.geb_le in E. split; [lia | reflexivity].
    + rewrite Z.geb_leb in E. apply Z.leb_gt in E. split; [discriminate | lia].
  - intros R Hbig. destruct (reachable_accounted p R) as [Hfso _].
    pose proof (rows_size_nonneg (Page.rows p)).
    unfold Page.insert_row, Page.can_fit.
    unfold PAGE_SIZE, HEADER_SIZE in *.
    destruct (4096 - Page.free_space_offset p >=? len (json_dumps row) + 4) eqn:E;
      [|reflexivity].
    apply Z.geb_le in E. lia.
Qed.

Lemma insert_row_capacity_witness :
  Page.insert_row Sample.page_alice (Sample.wide 4072) = (false, Sample.page_alice).
Proof.
  apply (proj2 (insert_row_capacity Sample.page_alice 0 (Sample.wide 4072))).
  - apply (Page.reachable_insert (Page.__init__ 0) Sample.alice).
    + apply Page.reachable_new.
    + reflexivity.
  - vm_compute. reflexivity.
Defined.

(** X3. A successful [delete_row] removes one slot and shifts the later ones
    down: slots below the index read as before, every slot from the index on
    reads what the next slot held, and [num_rows] drops by one. *)
Theorem delete_row_shifts (p p' : Page.t) (i : Z) :
  Page.delete_row p i = (true, p') ->
  0 <= i < len (Page.rows p)
  /\ (forall j, 0 <= j < i -> Page.get_row p' j = Page.get_row p j)
  /\ (forall j, i <= j -> Page.get_row p' j = Page.get_row p (j + 1))
  /\ len (Page.rows p') = len (Page.rows p) - 1
  /\ Page.num_rows p' = Page.num_rows p - 1
  /\ Page.page_id p' = Page.page_id p.
Proof.
  unfold Page.delete_row.
  destruct ((0 <=? i) && (i <? len (Page.rows p))) eqn:Hi; [|discriminate].
  apply valid_slot in Hi. intros [= <-].
  unfold Page._recalculate_free_space. cbn [Page.rows Page.num_rows Page.page_id].
  repeat split; try lia.
  - intros j Hj. rewrite <- (Z2Nat.id j) by lia. rewrite !get_row_lookup.
    cbn [Page.rows]. rewrite list_lookup_delete_lt by lia. reflexivity.
  - intros j Hj. rewrite <- (Z2Nat.id j) by lia.
    replace (Z.of_nat (Z.to_nat j) + 1) with (Z.of_nat (S (Z.to_nat j))) by lia.
    rewrite !get_row_lookup. cbn [Page.rows]. rewrite list_lookup_delete_ge by lia. reflexivity.
  - unfold len in *. rewrite length_delete by (apply lookup_lt_is_Some; lia). lia.
Qed.

Lemma delete_row_shifts_witness :
  Page.get_row (snd (Page.delete_row Sample.page_alice 0)) 0 = PyNone.
Proof.
  destruct (delete_row_shifts Sample.page_alice (snd (Page.delete_row Sample.page_alice 0)) 0
              eq_refl) as (_ & _ & Hshift & _).
  rewrite (Hshift 0) by lia. reflexivity.
Defined.

(** X4. An index outside [0 .. len(rows) - 1], a negative one included, is no
    slot: [get_row] returns [None], and [update_row] and [delete_row] return
    [False] and leave the page as it was. *)
Theorem out_of_range_slot (p : Page.t) (i : Z) (new : pyvalue) :
  i < 0 \/ len (Page.rows p) <= i ->
  Page.get_row p i = PyNone
  /\ Page.update_row p i new = (false, p)
  /\ Page.delete_row p i = (false, p).
Proof.
  intros Hi. unfold Page.get_row, Page.update_row, Page.delete_row.
  assert ((0 <=? i) && (i <? len (Page.rows p)) = false) as ->; [|auto].
  apply not_true_is_false. rewrite valid_slot. lia.
Qed.

Lemma out_of_range_slot_witness :
  Page.get_row Sample.page_alice (-1) = PyNone
  /\ Page.update_row Sample.page_alice (-1) Sample.alice = (false, Sample.page_alice)
  /\ Page.delete_row Sample.page_alice (-1) = (false, Sample.page_alice).
Proof.
  apply (out_of_range_slot Sample.page_alice (-1) Sample.alice). left. lia.
Defined.

(** X5. After a successful [update_row] the slot reads the new row, every other
    slot reads as before, and the number of rows is the same. *)
Theorem update_row_replaces_one_slot (p p' : Page.t) (i : Z) (new : pyvalue) :
  Page.update_row p i new = (true, p') ->
  Page.get_row p' i = new
  /\ (forall j, j <> i -> Page.get_row p' j = Page.get_row p j)
  /\ len (Page.rows p') = len (Page.rows p)
  /\ Page.num_rows p' = Page.num_rows p.
Proof.
  unfold Page.update_row.
  destruct ((0 <=? i) && (i <? len (Page.rows p))) eqn:Hi; [|discriminate].
  apply valid_slot in Hi. destruct (_ || _); [|discriminate]. intros [= <-].
  unfold Page._recalculate_free_space. cbn [Page.rows Page.num_rows].
  assert (Hlen : len (<[Z.to_nat i := new]> (Page.rows p)) = len (Page.rows p))
    by (unfold len; rewrite length_insert; reflexivity).
  repeat split; [| |exact Hlen].
  - rewrite get_row_nonneg by lia. cbn [Page.rows].
    rewrite list_lookup_insert_eq by (unfold len in Hi; lia). reflexivity.
  - intros j Hj. destruct (Z.lt_ge_cases j 0) as [Hneg|Hpos].
    + rewrite !get_row_negative by exact Hneg. reflexivity.
    + rewrite !get_row_nonneg by lia. cbn [Page.rows].
      rewrite list_lookup_insert_ne by lia. reflexivity.
Qed.

Lemma update_row_replaces_one_slot_witness :
  Page.get_row (snd (Page.update_row Sample.page_alice 0 (Sample.wide 3))) 0 = Sample.wide 3.
Proof.
  exact (proj1 (update_row_replaces_one_slot Sample.page_alice
                  (snd (Page.update_row Sample.page_alice 0 (Sample.wide 3))) 0
                  (Sample.wide 3) eq_refl)).
Defined.

(** ** Pages: space *)

Lemma page_eta (p : Page.t) :
  {| Page.page_id := Page.page_id p; Page.num_rows := Page.num_rows p;
     Page.free_space_offset := Page.free_space_offset p; Page.rows := Page.rows p |} = p.
Proof. destruct p; reflexivity. Qed.

(** X6. On a reachable page, updating a slot with the row it already holds
    succeeds and changes nothing. *)
Theorem update_row_same_row (p : Page.t) (i : Z) :
  Page.reachable p ->
  0 <= i < len (Page.rows p) ->
  Page.update_row p i (Page.get_row p i) = (true, p).
Proof.
  intros R Hi. destruct (reachable_accounted p R) as [Hfso _].
  unfold Page.update_row, Page.get_row.
  rewrite (proj2 (valid_slot _ _) Hi). rewrite Z.leb_refl. cbn [orb].
  unfold Page._recalculate_free_space. cbn [Page.page_id Page.num_rows Page.rows].
  rewrite list_insert_id by (apply slot_lookup, valid_slot, Hi).
  rewrite used_space_rows_size, <- Hfso, page_eta. reflexivity.
Qed.

Lemma update_row_same_row_witness :
  Page.update_row Sample.page_alice 0 (Page.get_row Sample.page_alice 0)
  = (true, Sample.page_alice).
Proof.
  apply (update_row_same_row Sample.page_alice 0).
  - apply (Page.reachable_insert (Page.__init__ 0) Sample.alice).
    + apply Page.reachable_new.
    + reflexivity.
  - vm_compute. split; congruence.
Defined.

(** X7. On a reachable page, deleting a row frees the room it took: the row
    just deleted can be inserted again, it then sits in the last slot, and
    [free_space_offset] is back at its value before the deletion. *)
Theorem delete_row_frees_space (p p' : Page.t) (i : Z) :
  Page.reachable p ->
  Page.delete_row p i = (true, p') ->
  let '(ok, p'') := Page.insert_row p' (Page.get_row p i) in
  (ok = true
   /\ Page.free_space_offset p'' = Page.free_space_offset p
   /\ Page.rows p'' = delete (Z.to_nat i) (Page.rows p) ++ [Page.get_row p i]).
Proof.
  intros R Hdel. destruct (reachable_accounted p R) as [Hfso Hle].
  unfold Page.delete_row in Hdel.
  destruct ((0 <=? i) && (i <? len (Page.rows p))) eqn:Hi; [|discriminate].
  pose proof (slot_lookup _ _ Hi) as Hold. injection Hdel as <-.
  assert (Hrow : Page.get_row p i = Page.rows p !!! Z.to_nat i)
    by (unfold Page.get_row; rewrite Hi; reflexivity).
  rewrite Hrow. set (old := Page.rows p !!! Z.to_nat i) in *.
  unfold Page.insert_row, Page.can_fit, Page._recalculate_free_space.
  cbn [Page.free_space_offset Page.rows Page.page_id Page.num_rows].
  rewrite used_space_rows_size, (rows_size_delete _ _ _ Hold).
  assert ((PAGE_SIZE - (HEADER_SIZE + (Page.rows_size (Page.rows p) - (len (json_dumps old) + 4)))
           >=? len (json_dumps old) + 4) = true) as ->.
  { rewrite Z.geb_leb. apply Z.leb_le. lia. }
  cbn [negb fst snd Page.free_space_offset Page.rows]. repeat split. lia.
Qed.

Lemma delete_row_frees_space_witness :
  Page.insert_row (snd (Page.delete_row Sample.page_wide 0)) (Page.get_row Sample.page_wide 0)
  = (true, Sample.page_wide).
Proof.
  assert (R : Page.reachable Sample.page_wide).
  { apply (Page.reachable_insert (Page.__init__ 0) (Sample.wide 4061)).
    - apply Page.reachable_new.
    - vm_compute. reflexivity. }
  pose proof (delete_row_frees_space Sample.page_wide
                (snd (Page.delete_row Sample.page_wide 0)) 0 R eq_refl) as H.
  destruct (Page.insert_row _ _) as [ok p''] eqn:E.
  destruct H as (-> & _ & _). rewrite <- E. vm_compute. reflexivity.
Defined.

(** The length prefixes alone bound the number of rows of a page. *)
Lemma reachable_row_count (p : Page.t) :
  Page.reachable p -> 0 <= len (Page.rows p) <= 1021.
Proof.
  intros R. destruct (reachable_accounted p R) as [Hfso Hle].
  assert (4 * len (Page.rows p) <= Page.rows_size (Page.rows p)) as Hsum.
  { clear. induction (Page.rows p) as [|row rs IH]; [unfold len; simpl; lia|].
    cbn [Page.rows_size foldr]. fold (Page.rows_size rs).
    pose proof (len_nonneg (json_dumps row)). unfold len in *. simpl length. lia. }
  pose proof (len_nonneg (Page.rows p)). unfold HEADER_SIZE, PAGE_SIZE in *. lia.
Qed.

(** X8. On a reachable page [num_rows] is the number of rows held, and the
    length prefixes alone bound it: at most 1021 rows. *)
Theorem num_rows_counts_rows (p : Page.t) :
  Page.reachable p ->
  Page.num_rows p = len (Page.rows p) /\ 0 <= Page.num_rows p <= 1021.
Proof.
  intros R. pose proof (reachable_num_rows p R) as Hnum.
  split; [exact Hnum|]. rewrite Hnum. apply reachable_row_count. exact R.
Qed.

Lemma num_rows_counts_rows_witness :
  Page.num_rows Sample.page_alice = len (Page.rows Sample.page_alice).
Proof.
  apply (num_rows_counts_rows Sample.page_alice).
  apply (Page.reachable_insert (Page.__init__ 0) Sample.alice).
  - apply Page.reachable_new.
  - reflexivity.
Defined.

(** ** Pages: bytes *)

Lemma serialize_rows_ok (rs : list pyvalue) :
  Page.rows_size rs < 2 ^ 32 ->
  exists body, Page.serialize_rows rs [] = Ok body /\ len body = Page.rows_size rs.
Proof.
  induction rs as [|row rs IH]; intros Hsize.
  - exists []. split; reflexivity.
  - cbn [Page.rows_size foldr] in Hsize. fold (Page.rows_size rs) in Hsize.
    pose proof (len_nonneg (json_dumps row)) as H0.
    pose proof (rows_size_nonneg rs) as H1.
    destruct IH as (body & Hbody & Hlen); [lia|].
    assert (Page.serialize_rows (row :: rs) []
            = Ok (le32 (len (json_dumps row)) ++ json_dumps row ++ body)) as Hser.
    { cbn [Page.serialize_rows]. unfold struct_pack_I.
      rewrite (proj2 (Z.leb_le 0 _) H0), (proj2 (Z.ltb_lt (len (json_dumps row)) (2 ^ 32)))
        by lia.
      cbn [andb mbind result_bind]. rewrite serialize_rows_acc, Hbody.
      cbn [mbind result_bind app]. rewrite <- app_assoc. reflexivity. }
    eexists. split; [exact Hser|]. apply (serialize_rows_length _ _ Hser).
Qed.

(** A reachable page whose id fits four bytes serializes to a full page. *)
Lemma serialize_reachable_ok (p : Page.t) :
  Page.reachable p -> 0 <= Page.page_id p < 2 ^ 32 ->
  exists data, Page.serialize p = Ok data /\ len data = PAGE_SIZE.
Proof.
  intros R Hid. destruct (reachable_accounted p R) as [Hfso Hle].
  pose proof (reachable_num_rows p R) as Hnum.
  pose proof (reachable_row_count p R) as Hcount.
  pose proof (rows_size_nonneg (Page.rows p)) as Hsize.
  unfold HEADER_SIZE, PAGE_SIZE in *.
  destruct (serialize_rows_ok (Page.rows p)) as (body & Hbody & Hlen); [lia|].
  unfold Page.serialize, struct_pack_III, struct_pack_I.
  rewrite (proj2 (Z.leb_le 0 (Page.page_id p))), (proj2 (Z.ltb_lt (Page.page_id p) _)),
    (proj2 (Z.leb_le 0 (Page.num_rows p))), (proj2 (Z.ltb_lt (Page.num_rows p) _)),
    (proj2 (Z.leb_le 0 (Page.free_space_offset p))),
    (proj2 (Z.ltb_lt (Page.free_space_offset p) _)) by lia.
  cbn [andb mbind result_bind]. rewrite Hbody. cbn [mbind result_bind].
  eexists. split; [reflexivity|].
  unfold len, PAGE_SIZE, le32 in *.
  repeat rewrite length_app. rewrite length_replicate. simpl length.
  repeat rewrite length_app. simpl length. lia.
Qed.

(** X9. A reachable page whose id fits four bytes serializes to exactly
    [PAGE_SIZE] bytes; with an id outside [0 .. 2^32 - 1], [serialize] raises
    [struct.error]. *)
Theorem serialize_reachable_page (p : Page.t) :
  Page.reachable p ->
  (0 <= Page.page_id p < 2 ^ 32 ->
   exists data, Page.serialize p = Ok data /\ len data = PAGE_SIZE)
  /\ (~ 0 <= Page.page_id p < 2 ^ 32 ->
      Page.serialize p = Raise (StructError "argument out of range")).
Proof.
  intros R. split.
  - apply serialize_reachable_ok. exact R.
  - intros Hid. unfold Page.serialize, struct_pack_III, struct_pack_I.
    assert ((0 <=? Page.page_id p) && (Page.page_id p <? 2 ^ 32) = false) as ->; [|reflexivity].
    apply not_true_is_false. rewrite andb_true_iff, Z.leb_le, Z.ltb_lt. exact Hid.
Qed.

Lemma serialize_reachable_page_witness :
  exists data, Page.serialize Sample.page_alice = Ok data /\ len data = PAGE_SIZE.
Proof.
  apply (proj1 (serialize_reachable_page Sample.page_alice
                  (Page.reachable_insert (Page.__init__ 0) Sample.alice Sample.page_alice
                     (Page.reachable_new 0) eq_refl))).
  vm_compute. split; congruence.
Defined.

(** A reachable page without rows is the new page of its id. *)
Lemma reachable_no_rows (p : Page.t) :
  Page.reachable p -> Page.rows p = [] -> p = Page.__init__ (Page.page_id p).
Proof.
  intros R Hrows. destruct (reachable_accounted p R) as [Hfso _].
  pose proof (reachable_num_rows p R) as Hnum.
  rewrite Hrows in Hfso, Hnum. unfold len in Hnum. simpl in Hfso, Hnum.
  rewrite Z.add_0_r in Hfso.
  destruct p; simpl in *. unfold Page.__init__. subst. reflexivity.
Qed.

(** X10. A reachable page that holds no row, a new one or one emptied by
    deletions, survives the round trip when its id fits four bytes. *)
Theorem round_trip_without_rows (p : Page.t) :
  Page.reachable p ->
  Page.rows p = [] ->
  0 <= Page.page_id p < 2 ^ 32 ->
  (data ← Page.serialize p; Page.deserialize data) = Ok p.
Proof.
  intros R Hrows Hid. rewrite (reachable_no_rows p R Hrows) at 1 2.
  apply round_trip_new_page. exact Hid.
Qed.

Lemma round_trip_without_rows_witness :
  (data ← Page.serialize (snd (Page.delete_row Sample.page_alice 0)); Page.deserialize data)
  = Ok (snd (Page.delete_row Sample.page_alice 0)).
Proof.
  apply round_trip_without_rows.
  - apply (Page.reachable_delete Sample.page_alice 0); [|reflexivity].
    apply (Page.reachable_insert (Page.__init__ 0) Sample.alice).
    + apply Page.reachable_new.
    + reflexivity.
  - reflexivity.
  - vm_compute. split; congruence.
Defined.

Lemma Z_of_byte_range (b : byte) : 0 <= Z_of_byte b < 256.
Proof.
  unfold Z_of_byte. pose proof (Byte.to_N_bounded b). lia.
Qed.

Lemma lor_below (a b n : Z) :
  0 < n -> 0 <= a < 2 ^ n -> 0 <= b < 2 ^ n -> 0 <= Z.lor a b < 2 ^ n.
Proof.
  intros Hn Ha Hb.
  assert (0 <= Z.lor a b) as H0 by (apply Z.lor_nonneg; lia).
  split; [exact H0|].
  destruct (Z.eq_dec (Z.lor a b) 0) as [->|Hne]; [apply Z.pow_pos_nonneg; lia|].
  apply Z.log2_lt_pow2; [lia|]. rewrite Z.log2_lor by lia.
  assert (forall x, 0 <= x < 2 ^ n -> Z.log2 x < n) as Hlog.
  { intros x Hx. destruct (Z.eq_dec x 0) as [->|Hx0]; [simpl; lia|].
    apply Z.log2_lt_pow2; lia. }
  apply Z.max_lub_lt; auto.
Qed.

Lemma struct_unpack_I_range (data : list byte) (z : Z) :
  struct_unpack_I data = Ok z -> 0 <= z < 2 ^ 32.
Proof.
  destruct data as [|b0 [|b1 [|b2 [|b3 [|]]]]]; try discriminate. intros [= <-].
  pose proof (Z_of_byte_range b0). pose proof (Z_of_byte_range b1).
  pose proof (Z_of_byte_range b2). pose proof (Z_of_byte_range b3).
  rewrite !Z.shiftl_mul_pow2 by lia.
  repeat (apply lor_below; [lia| |]); lia.
Qed.

Lemma struct_unpack_III_range (data : list byte) (a b c : Z) :
  struct_unpack_III data = Ok (a, b, c) ->
  length data = 12%nat /\ 0 <= a < 2 ^ 32 /\ 0 <= b < 2 ^ 32 /\ 0 <= c < 2 ^ 32.
Proof.
  unfold struct_unpack_III. case_bool_decide as Hlen; [|discriminate].
  destruct (struct_unpack_I (take 4 data)) as [a'|] eqn:Ha; simpl; [|discriminate].
  destruct (struct_unpack_I (take 4 (drop 4 data))) as [b'|] eqn:Hb; simpl; [|discriminate].
  destruct (struct_unpack_I (take 4 (drop 8 data))) as [c'|] eqn:Hc; simpl; [|discriminate].
  intros [= <- <- <-].
  repeat split; try exact Hlen;
    first [ apply (struct_unpack_I_range _ _ Ha)
          | apply (struct_unpack_I_range _ _ Hb)
          | apply (struct_unpack_I_range _ _ Hc) ].
Qed.

(** What [deserialize] guarantees of a page it returns. *)
Lemma deserialize_shape (data : list byte) (p : Page.t) :
  Page.deserialize data = Ok p ->
  12 <= len data
  /\ length (Page.rows p) = Z.to_nat (Page.num_rows p)
  /\ 0 <= Page.page_id p < 2 ^ 32
  /\ 0 <= Page.num_rows p < 2 ^ 32
  /\ 0 <= Page.free_space_offset p < 2 ^ 32.
Proof.
  intros H. pose proof (deserialize_row_count _ _ H) as Hcount.
  unfold Page.deserialize, HEADER_SIZE in H.
  rewrite py_slice_head in H by lia. change (Z.to_nat 12) with 12%nat in H.
  destruct (struct_unpack_III (take 12 data)) as [[[a b] c]|] eqn:Hunpack;
    simpl in H; [|discriminate].
  apply struct_unpack_III_range in Hunpack as (Hlen & Ha & Hb & Hc).
  destruct (Page.deserialize_rows _ _ _ _); simpl in H; [|discriminate].
  injection H as <-. cbn [Page.page_id Page.num_rows Page.free_space_offset].
  repeat split; try lia; try exact Hcount.
  rewrite length_take in Hlen. unfold len. lia.
Qed.

(** X11. [deserialize] raises [struct.error] on fewer than 12 bytes.  A page
    it returns has exactly as many rows as its header announces, and header
    fields between 0 and 2^32 - 1. *)
Theorem deserialize_header (data : list byte) :
  (len data < 12 ->
   Page.deserialize data = Raise (StructError "unpack requires a buffer of 12 bytes"))
  /\ (forall p, Page.deserialize data = Ok p ->
        len (Page.rows p) = Page.num_rows p
        /\ 0 <= Page.page_id p < 2 ^ 32
        /\ 0 <= Page.num_rows p < 2 ^ 32
        /\ 0 <= Page.free_space_offset p < 2 ^ 32).
Proof.
  split.
  - intros Hshort. unfold Page.deserialize, HEADER_SIZE.
    rewrite py_slice_head by lia. unfold struct_unpack_III.
    rewrite bool_decide_eq_false_2; [reflexivity|].
    rewrite length_take. unfold len in Hshort. lia.
  - intros p H. apply deserialize_shape in H as (_ & Hcount & Hid & Hnum & Hfso).
    repeat split; try lia. unfold len. lia.
Qed.

Lemma deserialize_header_witness :
  Page.deserialize [x01; x02; x03]
  = Raise (StructError "unpack requires a buffer of 12 bytes").
Proof.
  apply (proj1 (deserialize_header [x01; x02; x03])). vm_compute. reflexivity.
Defined.

(** ** Files: the bytes of a write *)

Lemma write_at_length (content : list byte) (offset : Z) (data : list byte) :
  length (FileManager.write_at content offset data)
  = (length content `max` (Z.to_nat offset + length data))%nat.
Proof.
  unfold FileManager.write_at.
  rewrite !length_app, length_take, length_app, length_replicate, length_drop. lia.
Qed.


Lemma write_at_inside (content : list byte) (offset : Z) (data : list byte) (k : nat) :
  (k < length data)%nat ->
  FileManager.write_at content offset data !! (Z.to_nat offset + k)%nat = data !! k.
Proof.
  intros Hk. unfold FileManager.write_at.
  assert (length (take (Z.to_nat offset)
                    (content ++ replicate (Z.to_nat offset - length content) x00))
          = Z.to_nat offset) as Hlen
    by (rewrite length_take, length_app, length_replicate; lia).
  rewrite lookup_app_r by lia. rewrite Hlen.
  replace (Z.to_nat offset + k - Z.to_nat offset)%nat with k by lia.
  apply lookup_app_l. exact Hk.
Qed.


Lemma f_read_lookup (content : list byte) (offset n : Z) (k : nat) :
  FileManager.f_read content offset n !! k
  = if decide (k < Z.to_nat n)%nat then content !! (Z.to_nat offset + k)%nat else None.
Proof.
  unfold FileManager.f_read. case_decide as Hk.
  - rewrite lookup_take_lt by exact Hk. apply lookup_drop.
  - apply lookup_take_ge. lia.
Qed.

(** Reading back the range just written. *)
Lemma f_read_written (content : list byte) (offset : Z) (data : list byte) :
  FileManager.f_read (FileManager.write_at content offset data) offset (len data) = data.
Proof.
  apply list_eq. intros k. rewrite f_read_lookup. unfold len. rewrite Nat2Z.id.
  case_decide as Hk.
  - apply write_at_inside. exact Hk.
  - symmetry. apply lookup_ge_None. lia.
Qed.



(** ** Files: [write_page] and [read_page] *)

(** [read_page] as one case analysis on the file. *)
Lemma read_page_run (fm : FileManager.t) (fs : disk) (name : pystr) (page_id : Z) :
  FileManager.read_page fm fs name page_id
  = match fs !! FileManager._get_file_path fm name with
    | None => None
    | Some content =>
        if page_id * PAGE_SIZE + PAGE_SIZE >? len content then None
        else if page_id <? 0 then None
        else match Page.deserialize
                     (FileManager.f_read content (page_id * PAGE_SIZE) PAGE_SIZE) with
             | Ok page => Some page
             | Raise _ => None
             end
    end.
Proof.
  unfold FileManager.read_page.
  destruct (fs !! _) as [content|]; [|reflexivity]. cbv zeta.
  destruct (page_id * PAGE_SIZE + PAGE_SIZE >? len content) eqn:Hbig; [reflexivity|].
  rewrite Z.gtb_ltb in Hbig. apply Z.ltb_ge in Hbig.
  unfold FileManager.f_seek.
  destruct (page_id <? 0) eqn:Hneg.
  - apply Z.ltb_lt in Hneg.
    rewrite (proj2 (Z.ltb_lt (page_id * PAGE_SIZE) 0)) by (unfold PAGE_SIZE; lia).
    reflexivity.
  - apply Z.ltb_ge in Hneg.
    rewrite (proj2 (Z.ltb_ge (page_id * PAGE_SIZE) 0)) by (unfold PAGE_SIZE; lia).
    cbn [mbind result_bind].
    destruct (f_read_slice content (page_id * PAGE_SIZE)) as [_ Hfull];
      [unfold PAGE_SIZE; lia | exact Hbig |].
    rewrite Hfull, Z.ltb_irrefl.
    destruct (Page.deserialize _); reflexivity.
Qed.

(** The content of the table's file, empty when there is none. *)
Lemma get_num_pages_len (fm : FileManager.t) (fs : disk) (name : pystr) :
  FileManager.get_num_pages fm fs name
  = len (default [] (fs !! FileManager._get_file_path fm name)) `div` PAGE_SIZE.
Proof.
  unfold FileManager.get_num_pages. destruct (fs !! _); reflexivity.
Qed.

(** A write that gets as far as the bytes. *)
Lemma write_page_run (fm : FileManager.t) (fs : disk) (name : pystr) (page : Page.t)
    (data : list byte) :
  0 <= Page.page_id page ->
  Page.serialize page = Ok data ->
  FileManager.write_page fm fs name page
  = (true,
     <[FileManager._get_file_path fm name :=
         FileManager.write_at (default [] (fs !! FileManager._get_file_path fm name))
           (Page.page_id page * PAGE_SIZE) data]> fs).
Proof.
  intros Hid Hser. unfold FileManager.write_page, FileManager.f_seek.
  rewrite (proj2 (Z.ltb_ge (Page.page_id page * PAGE_SIZE) 0)) by (unfold PAGE_SIZE; lia).
  rewrite Hser. cbn [mbind result_bind].
  destruct (fs !! FileManager._get_file_path fm name) as [content|]; cbn [default].
  - reflexivity.
  - rewrite insert_insert_eq. reflexivity.
Qed.




(** What [deserialize] makes of the bytes of a reachable page with rows. *)
Lemma serialized_rows_raise (p : Page.t) (data : list byte) :
  Page.reachable p ->
  Page.rows p <> [] ->
  1 < len (Page.rows p) \/ Page.free_space_offset p < PAGE_SIZE ->
  Page.serialize p = Ok data ->
  raises (Page.deserialize data).
Proof.
  intros R Hne Hcase Hser.
  pose proof (reachable_num_rows p R) as Hnum.
  destruct (reachable_accounted p R) as [Hfso Hle].
  unfold Page.serialize in Hser.
  destruct (struct_pack_III _ _ _) as [header|] eqn:Hh; [|discriminate].
  cbn [mbind result_bind] in Hser.
  destruct (Page.serialize_rows (Page.rows p) []) as [rows_data|] eqn:Hrows; [|discriminate].
  cbn [mbind result_bind] in Hser. injection Hser as <-.
  apply struct_unpack_pack_III in Hh as [Hunpack Hheader].
  destruct (Page.rows p) as [|row rest] eqn:Hrs; [contradiction|].
  apply serialize_rows_cons in Hrows as (tail & Htail & ->).
  cbn [Page.rows_size foldr] in Hfso. fold (Page.rows_size rest) in Hfso.
  pose proof (len_nonneg (json_dumps row)) as HL.
  pose proof (rows_size_nonneg rest) as Hrest.
  unfold HEADER_SIZE, PAGE_SIZE in *.
  set (json := json_dumps row) in *.
  set (pad := Z.to_nat (4096 - len (header ++ le32 (len json) ++ json ++ tail))).
  replace ((header ++ le32 (len json) ++ json ++ tail) ++ replicate pad x00)
    with (header ++ le32 (len json) ++ json ++ tail ++ replicate pad x00)
    by (rewrite <- !app_assoc; reflexivity).
  unfold Page.deserialize, HEADER_SIZE.
  rewrite py_slice_head by lia. change (Z.to_nat 12) with 12%nat.
  rewrite take_app_length' by (symmetry; exact Hheader).
  rewrite Hunpack. cbn [mbind result_bind].
  assert (exists n, Z.to_nat (Page.num_rows p) = S n) as [n ->].
  { exists (length rest). rewrite Hnum. unfold len. simpl. lia. }
  assert (raises (Page.deserialize_rows (S n)
                    (header ++ le32 (len json) ++ json ++ tail ++ replicate pad x00) 12 []))
    as Hraise.
  2:{ destruct (Page.deserialize_rows _ _ _ _); [contradiction | exact I]. }
  assert (len header = 12) as Hh12 by (unfold len; lia).
  apply (deserialize_rows_first_raises n _ 12 json (tail ++ replicate pad x00)).
  - rewrite <- Hh12. rewrite (py_slice_app header _ 4) by lia.
    change (Z.to_nat 4) with 4%nat. apply take_app_length'. reflexivity.
  - lia.
  - rewrite (app_assoc header).
    replace (12 + 4) with (len (header ++ le32 (len json)))
      by (unfold len; rewrite length_app; unfold le32; simpl; lia).
    replace (len (header ++ le32 (len json)) + 4 + len json)
      with (len (header ++ le32 (len json)) + (4 + len json)) by lia.
    apply py_slice_app. lia.
  - apply (zero_after_first_row row rest tail pad Htail); [lia|].
    intros ->. destruct Hcase as [Hmany|Hfree]; [unfold len in Hmany; simpl in Hmany; lia|].
    injection Htail as <-. unfold pad, len in *. rewrite !length_app in *.
    unfold le32 in *. simpl in *. lia.
Qed.

(** After a write, [read_page] of the same id sees the bytes written. *)
Lemma write_then_read (fm : FileManager.t) (fs : disk) (name : pystr) (page : Page.t)
    (data : list byte) :
  0 <= Page.page_id page ->
  Page.serialize page = Ok data ->
  len data = PAGE_SIZE ->
  FileManager.read_page fm (snd (FileManager.write_page fm fs name page)) name
    (Page.page_id page)
  = match Page.deserialize data with
    | Ok q => Some q
    | Raise _ => None
    end.
Proof.
  intros Hid Hser Hlen. rewrite (write_page_run fm fs name page data Hid Hser).
  cbn [snd]. rewrite read_page_run, lookup_insert_eq.
  set (old := default [] (fs !! FileManager._get_file_path fm name)).
  assert (len (FileManager.write_at old (Page.page_id page * PAGE_SIZE) data)
          >= Page.page_id page * PAGE_SIZE + PAGE_SIZE) as Hbig.
  { unfold len in *. rewrite write_at_length. unfold PAGE_SIZE in *. lia. }
  destruct (_ >? _) eqn:E; [rewrite Z.gtb_ltb in E; apply Z.ltb_lt in E; lia|].
  rewrite (proj2 (Z.ltb_ge (Page.page_id page) 0)) by lia.
  replace (FileManager.f_read _ _ PAGE_SIZE) with data
    by (rewrite <- Hlen; symmetry; apply f_read_written).
  reflexivity.
Qed.



(** A page with rows, once written, is not read back. *)
Lemma written_rows_read (fm : FileManager.t) (fs : disk) (name : pystr) (page : Page.t) :
  Page.reachable page ->
  Page.rows page <> [] ->
  1 < len (Page.rows page) \/ Page.free_space_offset page < PAGE_SIZE ->
  0 <= Page.page_id page < 2 ^ 32 ->
  FileManager.read_page fm (snd (FileManager.write_page fm fs name page)) name
    (Page.page_id page) = None.
Proof.
  intros R Hne Hcase Hid.
  destruct (serialize_reachable_ok page R Hid) as (data & Hser & Hlen).
  rewrite (write_then_read fm fs name page data) by (lia || assumption).
  pose proof (serialized_rows_raise page data R Hne Hcase Hser) as Hr.
  destruct (Page.deserialize data); [contradiction | reflexivity].
Qed.

(** Written as page 0 of a table without a file, it leaves nothing to scan. *)
Lemma written_rows_scan (fm : FileManager.t) (fs : disk) (name : pystr) (page : Page.t) :
  Page.reachable page ->
  Page.rows page <> [] ->
  1 < len (Page.rows page) \/ Page.free_space_offset page < PAGE_SIZE ->
  Page.page_id page = 0 ->
  fs !! FileManager._get_file_path fm name = None ->
  FileManager.scan_all_pages fm (snd (FileManager.write_page fm fs name page)) name = [].
Proof.
  intros R Hne Hcase H0 Hmissing.
  assert (Hid : 0 <= Page.page_id page < 2 ^ 32) by (rewrite H0; split; [lia | reflexivity]).
  pose proof (written_rows_read fm fs name page R Hne Hcase Hid) as Hread.
  destruct (serialize_reachable_ok page R Hid) as (data & Hser & Hlen).
  unfold FileManager.scan_all_pages.
  assert (Hn : FileManager.get_num_pages fm
                 (snd (FileManager.write_page fm fs name page)) name = 1).
  { rewrite (write_page_run fm fs name page data) by (lia || assumption).
    cbn [snd]. rewrite get_num_pages_len, lookup_insert_eq, Hmissing, H0.
    change (default [] (Some ?x)) with x. cbn [default].
    unfold len in *. rewrite write_at_length. cbn [length].
    replace (Z.of_nat _) with PAGE_SIZE by (unfold PAGE_SIZE in *; lia).
    reflexivity. }
  rewrite Hn. change (seqZ 0 1) with [0]. cbn [omap list_omap].
  rewrite <- H0, Hread. reflexivity.
Qed.

(** X14. Rows do not survive the disk: after writing a reachable page that
    holds rows (other than a single row filling the page to its last byte),
    [read_page] of that page id answers None; written as page 0 of a table
    without a file, it leaves [scan_all_pages] with nothing to yield. *)
Theorem written_rows_unreadable (fm : FileManager.t) (fs : disk) (name : pystr)
    (page : Page.t) :
  Page.reachable page ->
  Page.rows page <> [] ->
  1 < len (Page.rows page) \/ Page.free_space_offset page < PAGE_SIZE ->
  0 <= Page.page_id page < 2 ^ 32 ->
  let fs' := snd (FileManager.write_page fm fs name page) in
  FileManager.read_page fm fs' name (Page.page_id page) = None
  /\ (Page.page_id page = 0 -> fs !! FileManager._get_file_path fm name = None ->
      FileManager.scan_all_pages fm fs' name = []).
Proof.
  intros R Hne Hcase Hid fs'. split.
  - apply written_rows_read; assumption.
  - intros H0 Hmissing. apply written_rows_scan; assumption.
Qed.

Lemma written_rows_unreadable_witness :
  FileManager.scan_all_pages Sample.fm
    (snd (FileManager.write_page Sample.fm ∅ Sample.users Sample.page_alice)) Sample.users
  = [].
Proof.
  assert (R : Page.reachable Sample.page_alice).
  { apply (Page.reachable_insert (Page.__init__ 0) Sample.alice).
    - apply Page.reachable_new.
    - reflexivity. }
  refine (proj2 (written_rows_unreadable Sample.fm ∅ Sample.users Sample.page_alice
                   R _ _ _) _ _).
  - discriminate.
  - right. vm_compute. reflexivity.
  - vm_compute. split; congruence.
  - reflexivity.
  - reflexivity.
Defined.








(** ** Files: creating and deleting *)

Lemma read_page_range (fm : FileManager.t) (fs : disk) (name : pystr) (q : Z) (p : Page.t) :
  FileManager.read_page fm fs name q = Some p ->
  0 <= q < FileManager.get_num_pages fm fs name
  /\ len (Page.rows p) = Page.num_rows p
  /\ 0 <= Page.page_id p < 2 ^ 32.
Proof.
  rewrite read_page_run, get_num_pages_len.
  destruct (fs !! _) as [content|]; [|discriminate].
  change (default [] (Some content)) with content.
  destruct (Z.gtb_spec (q * PAGE_SIZE + PAGE_SIZE) (len content)); [discriminate|].
  destruct (Z.ltb_spec q 0); [discriminate|].
  destruct (Page.deserialize _) as [page|] eqn:Hd; [|discriminate].
  intros [= ->]. apply deserialize_shape in Hd as (_ & Hcount & Hid & Hnum & _).
  split; [|split; [unfold len; lia | exact Hid]].
  split; [assumption|].
  assert (q + 1 <= len content `div` PAGE_SIZE)
    by (apply Z.div_le_lower_bound; unfold PAGE_SIZE in *; lia).
  lia.
Qed.



(** ** Files: scanning *)

Lemma length_omap_le {A B : Type} (f : A -> option B) (l : list A) :
  (length (omap f l) <= length l)%nat.
Proof.
  induction l as [|x l IH]; [reflexivity|].
  cbn [omap list_omap]. destruct (f x); simpl; lia.
Qed.

(** What [scan_all_pages] yields. *)
Lemma scan_all_pages_elem (fm : FileManager.t) (fs : disk) (name : pystr) (p : Page.t) :
  p ∈ FileManager.scan_all_pages fm fs name
  <-> exists q, 0 <= q < FileManager.get_num_pages fm fs name
                /\ FileManager.read_page fm fs name q = Some p
                /\ 0 < Page.num_rows p.
Proof.
  unfold FileManager.scan_all_pages. rewrite list_elem_of_omap. split.
  - intros (q & Hq & Hsome). apply elem_of_seqZ in Hq. exists q.
    destruct (FileManager.read_page fm fs name q) as [p'|]; [|discriminate].
    destruct (Z.gtb_spec (Page.num_rows p') 0); [|discriminate].
    injection Hsome as ->. repeat split; (lia || reflexivity).
  - intros (q & Hq & Hread & Hrows). exists q. split; [apply elem_of_seqZ; lia|].
    rewrite Hread. destruct (Z.gtb_spec (Page.num_rows p) 0); [reflexivity | lia].
Qed.

(** X20. [scan_all_pages] yields exactly the pages that [read_page] returns
    for an id between 0 and [get_num_pages - 1] and that announce at least
    one row; each page it yields holds at least one row, and there are at
    most [get_num_pages] of them.  [read_page] returns nothing for an id
    outside that range. *)
Theorem scan_all_pages_spec (fm : FileManager.t) (fs : disk) (name : pystr) :
  (forall p,
     p ∈ FileManager.scan_all_pages fm fs name
     <-> exists q, 0 <= q < FileManager.get_num_pages fm fs name
                   /\ FileManager.read_page fm fs name q = Some p
                   /\ 0 < Page.num_rows p)
  /\ (forall p, p ∈ FileManager.scan_all_pages fm fs name -> Page.rows p <> [])
  /\ len (FileManager.scan_all_pages fm fs name) <= FileManager.get_num_pages fm fs name
  /\ (forall q, q < 0 \/ FileManager.get_num_pages fm fs name <= q ->
        FileManager.read_page fm fs name q = None).
Proof.
  split; [apply scan_all_pages_elem|]. split; [|split].
  - intros p Hp. apply scan_all_pages_elem in Hp as (q & _ & Hread & Hrows).
    apply read_page_range in Hread as (_ & Hlen & _).
    intros Hnil. rewrite Hnil in Hlen. unfold len in Hlen. simpl in Hlen. lia.
  - unfold FileManager.scan_all_pages, len.
    pose proof (length_omap_le
      (fun page_id =>
         match FileManager.read_page fm fs name page_id with
         | Some page => if Page.num_rows page >? 0 then Some page else None
         | None => None
         end) (seqZ 0 (FileManager.get_num_pages fm fs name))) as Hle.
    rewrite length_seqZ in Hle.
    assert (0 <= FileManager.get_num_pages fm fs name).
    { rewrite get_num_pages_len. apply Z.div_pos; [apply len_nonneg | unfold PAGE_SIZE; lia]. }
    lia.
  - intros q Hq. destruct (FileManager.read_page fm fs name q) as [p|] eqn:Hr; [|reflexivity].
    apply read_page_range in Hr. lia.
Qed.

(** ** Columns: construction and type checks *)

(** X21. [Column(...)] raises [ValueError] exactly when the data type is none
    of the four valid ones.  The column it builds otherwise keeps its
    arguments, except that a primary key is never nullable: it accepts None
    only when it is declared nullable and is no primary key. *)
Theorem column_init_spec (name data_type : pystr) (primary_key unique nullable : bool) :
  (data_type ∉ Column.VALID_TYPES ->
   Column.__init__ name data_type primary_key unique nullable
   = Raise (ValueError "Invalid data type"))
  /\ (data_type ∈ Column.VALID_TYPES ->
      exists c, Column.__init__ name data_type primary_key unique nullable = Ok c
        /\ Column.name c = name /\ Column.data_type c = data_type
        /\ Column.primary_key c = primary_key /\ Column.unique c = unique
        /\ Column.validate_value c PyNone = negb primary_key && nullable).
Proof.
  unfold Column.__init__. split; intros H.
  - rewrite bool_decide_eq_false_2 by exact H. reflexivity.
  - rewrite bool_decide_eq_true_2 by exact H. cbn [negb]. eexists. split; [reflexivity|].
    cbn. repeat split.
Qed.

(** X22. On values other than None the four types are nested or apart: what
    a [BOOLEAN] column accepts an [INTEGER] column accepts, what an [INTEGER]
    column accepts a [REAL] column accepts, nothing is accepted both by a
    [TEXT] column and by a [REAL] column, and no column accepts a list or a
    dict. *)
Theorem validate_value_types (cb ci cr ct : Column.t) (v : pyvalue) :
  Column.data_type cb = str "BOOLEAN" ->
  Column.data_type ci = str "INTEGER" ->
  Column.data_type cr = str "REAL" ->
  Column.data_type ct = str "TEXT" ->
  v <> PyNone ->
  (Column.validate_value cb v = true -> Column.validate_value ci v = true)
  /\ (Column.validate_value ci v = true -> Column.validate_value cr v = true)
  /\ (Column.validate_value ct v = true -> Column.validate_value cr v = false)
  /\ (forall c, hashable v = false -> Column.validate_value c v = false).
Proof.
  intros Hb Hi Hr Ht Hv. unfold Column.validate_value. rewrite Hb, Hi, Hr, Ht.
  repeat split.
  - destruct v; try contradiction; vm_compute; congruence.
  - destruct v; try contradiction; vm_compute; congruence.
  - destruct v; try contradiction; vm_compute; congruence.
  - intros c Hh.
    destruct v; try discriminate Hh;
      repeat (destruct (pystr_eqb _ _); [reflexivity|]); reflexivity.
Qed.

Lemma validate_value_types_witness :
  Column.validate_value Sample.price_column (PyStr (str "Alice")) = false.
Proof.
  refine (proj1 (proj2 (proj2 (validate_value_types
            (Column.mk (str "ok") (str "BOOLEAN") false false true)
            Sample.id_column Sample.price_column Sample.name_column
            (PyStr (str "Alice")) _ _ _ _ _))) _); (reflexivity || discriminate).
Defined.

(** ** Tables: construction *)

Lemma pystr_eqb_eq (a b : pystr) : pystr_eqb a b = true <-> a = b.
Proof. unfold pystr_eqb. apply bool_decide_eq_true. Qed.

Lemma pystr_eqb_neq (a b : pystr) : pystr_eqb a b = false <-> a <> b.
Proof. unfold pystr_eqb. apply bool_decide_eq_false. Qed.

Lemma dict_get_set {V} (d : list (pystr * V)) (k k' : pystr) (v : V) :
  dict_get (dict_set d k v) k' = if pystr_eqb k k' then Some v else dict_get d k'.
Proof.
  induction d as [|[k0 v0] d IH]; cbn [dict_set dict_get].
  - reflexivity.
  - destruct (pystr_eqb k0 k) eqn:H0; cbn [dict_get].
    + apply pystr_eqb_eq in H0 as ->. destruct (pystr_eqb k k'); reflexivity.
    + destruct (pystr_eqb k0 k') eqn:H1; [|exact IH].
      apply pystr_eqb_eq in H1 as ->. apply pystr_eqb_neq in H0.
      rewrite (proj2 (pystr_eqb_neq k k')) by congruence. reflexivity.
Qed.

(** A dict built from a list of columns holds, under each name, the last
    column of that name. *)
Lemma columns_dict_get (columns : list Column.t) (d : list (pystr * Column.t)) (n : pystr) :
  dict_get (fold_left (fun d col => dict_set d (Column.name col) col) columns d) n
  = match last (List.filter (fun c => pystr_eqb (Column.name c) n) columns) with
    | Some c => Some c
    | None => dict_get d n
    end.
Proof.
  revert d. induction columns as [|col columns IH]; intros d; [reflexivity|].
  cbn [fold_left List.filter]. rewrite IH, dict_get_set.
  destruct (pystr_eqb (Column.name col) n).
  - rewrite last_cons. destruct (last _); reflexivity.
  - reflexivity.
Qed.

Lemma scan_missing_file (fm : FileManager.t) (fs : disk) (name : pystr) :
  FileManager.get_num_pages fm fs name = 0 -> FileManager.scan_all_pages fm fs name = [].
Proof. unfold FileManager.scan_all_pages. intros ->. reflexivity. Qed.

Lemma table_exists_false (fm : FileManager.t) (fs : disk) (name : pystr) :
  FileManager.table_exists fm fs name = false
  <-> fs !! FileManager._get_file_path fm name = None.
Proof.
  unfold FileManager.table_exists. split.
  - intros H. apply bool_decide_eq_false_1 in H.
    destruct (fs !! _); [exfalso; apply H; eauto | reflexivity].
  - intros H. apply bool_decide_eq_false_2. rewrite H. intros [? [=]].
Qed.

(** X23. For a table that has no file, [Table(...)] returns an object with
    [next_page_id] 0 and without its two index attributes.  Its
    [column_order] is the list of names as given, while its [columns] dict
    holds under each name the last column given with that name; every
    primary-key column is among [unique_cols]; [select_all] returns no row. *)
Theorem init_without_file
    (name : pystr) (columns : list Column.t) (fm : FileManager.t) (fs : disk) :
  FileManager.table_exists fm fs name = false ->
  exists t,
    Table.__init__ name columns fm fs = Ok t
    /\ Table.next_page_id t = 0
    /\ Table.primary_key_index t = None /\ Table.unique_indexes t = None
    /\ Table.column_order t = map Column.name columns
    /\ (forall n, dict_get (Table.columns t) n
                  = last (List.filter (fun c => pystr_eqb (Column.name c) n) columns))
    /\ (forall n, In n (Table.primary_key_cols t) -> In n (Table.unique_cols t))
    /\ Table.select_all t fs = [].
Proof.
  intros Hex. unfold Table.__init__. rewrite Hex. eexists. split; [reflexivity|].
  cbn [Table.next_page_id Table.primary_key_index Table.unique_indexes Table.column_order
       Table.columns Table.primary_key_cols Table.unique_cols].
  repeat split.
  - intros n. rewrite columns_dict_get. destruct (last _); reflexivity.
  - intros n Hn. apply in_map_iff in Hn as (c & <- & Hc). apply filter_In in Hc as [Hin Hpk].
    apply in_map. apply filter_In. split; [exact Hin|]. rewrite Hpk. apply orb_true_r.
  - unfold Table.select_all. cbn [Table.file_manger Table.name].
    rewrite scan_missing_file; [reflexivity|].
    rewrite get_num_pages_len. apply table_exists_false in Hex. rewrite Hex. reflexivity.
Qed.

Lemma init_without_file_witness :
  exists t, Table.__init__ Sample.users [Sample.id_column; Sample.name_column] Sample.fm ∅ = Ok t
            /\ Table.next_page_id t = 0.
Proof.
  assert (Hex : FileManager.table_exists Sample.fm ∅ Sample.users = false)
    by (vm_compute; reflexivity).
  destruct (init_without_file Sample.users [Sample.id_column; Sample.name_column] Sample.fm ∅
              Hex) as (t & Hinit & Hnext & _).
  exists t. split; assumption.
Defined.





(** ** Tables: construction over pages *)

Lemma fold_max_page_id (pages : list Page.t) (n : Z) :
  let m := fold_left (fun n page => Z.max n (Page.page_id page + 1)) pages n in
  n <= m
  /\ (forall p, p ∈ pages -> Page.page_id p < m)
  /\ (m = n \/ exists p, p ∈ pages /\ m = Page.page_id p + 1).
Proof.
  revert n. induction pages as [|page pages IH]; intros n; cbn [fold_left].
  - repeat split; [lia | | left; reflexivity]. intros p Hp. inversion Hp.
  - destruct (IH (Z.max n (Page.page_id page + 1))) as (Hle & Hall & Hhit).
    cbv zeta in *. repeat split.
    + lia.
    + intros p Hp. apply elem_of_cons in Hp as [->|Hp]; [lia | apply Hall, Hp].
    + destruct Hhit as [Heq|(p & Hp & Heq)].
      * destruct (Z.max_spec n (Page.page_id page + 1)) as [[_ Hm]|[_ Hm]].
        -- right. exists page. split; [apply list_elem_of_here | lia].
        -- left. lia.
      * right. exists p. split; [apply list_elem_of_further, Hp | exact Heq].
Qed.

Lemma filter_none {A} (f : A -> bool) (l : list A) :
  (forall x, In x l -> f x = false) -> List.filter f l = [].
Proof.
  induction l as [|x l IH]; intros H; [reflexivity|]. cbn [List.filter].
  rewrite (H x) by (left; reflexivity). apply IH. intros y Hy. apply H. right. exact Hy.
Qed.

(** X26. For a schema without primary-key and unique columns, [Table(...)]
    over a file from which [scan_all_pages] yields pages returns an object
    whose [next_page_id] is one more than the largest id found in the headers
    of those pages; its index attributes are still missing. *)
Theorem init_without_keys
    (name : pystr) (columns : list Column.t) (fm : FileManager.t) (fs : disk) :
  (forall col, In col columns -> Column.primary_key col = false /\ Column.unique col = false) ->
  FileManager.table_exists fm fs name = true ->
  FileManager.scan_all_pages fm fs name <> [] ->
  exists t,
    Table.__init__ name columns fm fs = Ok t
    /\ (forall p, p ∈ FileManager.scan_all_pages fm fs name ->
          Page.page_id p < Table.next_page_id t)
    /\ (exists p, p ∈ FileManager.scan_all_pages fm fs name
                  /\ Table.next_page_id t = Page.page_id p + 1)
    /\ 0 < Table.next_page_id t <= 2 ^ 32
    /\ Table.primary_key_index t = None /\ Table.unique_indexes t = None.
Proof.
  intros Hplain Hex Hpages.
  pose proof (init_run name columns fm fs) as Hinit. cbv zeta in Hinit.
  rewrite Hex in Hinit. cbn [Table.primary_key_cols Table.unique_cols] in Hinit.
  rewrite (filter_none Column.primary_key) in Hinit by (intros c Hc; apply Hplain, Hc).
  rewrite (filter_none (fun col => Column.unique col || Column.primary_key col)) in Hinit
    by (intros c Hc; destruct (Hplain c Hc) as [-> ->]; reflexivity).
  cbn [map] in Hinit. rewrite bool_decide_eq_true_2 in Hinit by reflexivity.
  cbn [negb] in Hinit.
  set (pages := FileManager.scan_all_pages fm fs name) in *.
  destruct (last pages) as [lp|] eqn:Hlast;
    [|apply last_None in Hlast; contradiction].
  eexists. split; [exact Hinit|]. cbn [Table.next_page_id Table.set_next_page_id
    Table.primary_key_index Table.unique_indexes].
  destruct (fold_max_page_id pages 0) as (Hle & Hall & Hhit). cbv zeta in *.
  assert (Hids : forall p, p ∈ pages -> 0 <= Page.page_id p < 2 ^ 32).
  { intros p Hp. apply scan_all_pages_elem in Hp as (q & _ & Hread & _).
    apply read_page_range in Hread as (_ & _ & Hid). exact Hid. }
  assert (Hlp : lp ∈ pages) by (apply last_Some_elem_of, Hlast).
  pose proof (Hall lp Hlp) as Hpos. pose proof (Hids lp Hlp) as Hlpid.
  assert (Hattained : exists p, p ∈ pages
            /\ fold_left (fun n page => Z.max n (Page.page_id page + 1)) pages 0
               = Page.page_id p + 1).
  { destruct Hhit as [Heq|Hp]; [lia | exact Hp]. }
  repeat split; try assumption.
  - lia.
  - destruct Hattained as (p & Hp & ->). pose proof (Hids p Hp). lia.
Qed.

Lemma init_without_keys_witness :
  exists t, Table.__init__ Sample.users [Sample.name_column] Sample.fm Sample.disk_two_pages
            = Ok t
            /\ 0 < Table.next_page_id t <= 2 ^ 32.
Proof.
  destruct (init_without_keys Sample.users [Sample.name_column] Sample.fm
              Sample.disk_two_pages) as (t & Hinit & _ & _ & Hnext & _).
  - intros col [<-|[]]. split; reflexivity.
  - vm_compute. reflexivity.
  - vm_compute. discriminate.
  - exists t. split; assumption.
Defined.

(** ** Tables: reading *)



(** X28. [select_all] returns exactly the rows of the pages that [read_page]
    returns for the table: the test on [num_rows] in [scan_all_pages] drops
    no row, as a page read from disk holds as many rows as it announces. *)
Theorem select_all_spec (self : Table.t) (fs : disk) (row : pyvalue) :
  In row (Table.select_all self fs)
  <-> exists page_id page,
        FileManager.read_page (Table.file_manger self) fs (Table.name self) page_id
        = Some page
        /\ In row (Page.rows page).
Proof.
  unfold Table.select_all. rewrite in_concat. split.
  - intros (rs & Hrs & Hrow). apply in_map_iff in Hrs as (page & <- & Hpage).
    apply list_elem_of_In, scan_all_pages_elem in Hpage as (q & _ & Hread & _).
    exists q, page. split; assumption.
  - intros (q & page & Hread & Hrow). exists (Page.rows page). split; [|exact Hrow].
    apply in_map. apply list_elem_of_In, scan_all_pages_elem. exists q.
    pose proof (read_page_range _ _ _ _ _ Hread) as (Hq & Hlen & _).
    repeat split; try assumption; try lia.
    destruct (Page.rows page) as [|r rs]; [contradiction|].
    rewrite <- Hlen. unfold len. simpl length. lia.
Qed.

(** ** Tables: what [_load_indexes] leaves alone *)

Lemma same_but_indexes_refl (s : Table.state) : same_but_indexes s s.
Proof. unfold same_but_indexes. repeat split. Qed.

Lemma same_but_indexes_trans (a b c : Table.state) :
  same_but_indexes a b -> same_but_indexes b c -> same_but_indexes a c.
Proof.
  unfold same_but_indexes. intros H1 H2.
  destruct H1 as (? & ? & ? & ? & ? & ? & ? & ? & ?).
  destruct H2 as (? & ? & ? & ? & ? & ? & ? & ? & ?).
  repeat split; congruence.
Qed.

Lemma only_bind {A B} (m : Table.M A) (k : A -> Table.M B) :
  assigns_indexes_only m -> (forall a, assigns_indexes_only (k a)) ->
  assigns_indexes_only (m ≫= k).
Proof.
  intros Hm Hk s. rewrite bind_run. specialize (Hm s).
  destruct (m s) as [[a|e] s']; cbn [snd] in *.
  - eapply same_but_indexes_trans; [exact Hm | apply Hk].
  - exact Hm.
Qed.

Lemma only_ret {A} (a : A) : assigns_indexes_only (mret a : Table.M A).
Proof. intros s. apply same_but_indexes_refl. Qed.

Lemma only_raise {A} (e : exn) : assigns_indexes_only (Table.raise e : Table.M A).
Proof. intros s. apply same_but_indexes_refl. Qed.

Lemma only_lift {A} (r : result A) : assigns_indexes_only (Table.lift r).
Proof. intros s. apply same_but_indexes_refl. Qed.

Lemma only_get_self : assigns_indexes_only Table.get_self.
Proof. intros s. apply same_but_indexes_refl. Qed.

Lemma only_getattr {A} attr (field : Table.t -> option A) :
  assigns_indexes_only (Table.getattr attr field).
Proof.
  intros s. rewrite getattr_run. destruct (field (fst s)); apply same_but_indexes_refl.
Qed.

Lemma only_assign (f : Table.t -> Table.t) :
  (forall self fs, same_but_indexes (self, fs) (f self, fs)) ->
  assigns_indexes_only (self ← Table.get_self; Table.set_self (f self)).
Proof. intros Hf [self fs]. apply Hf. Qed.

Lemma only_when (cond : bool) (body : Table.M unit) :
  assigns_indexes_only body -> assigns_indexes_only (Table.when cond body).
Proof. intros H. destruct cond; [exact H | apply only_ret]. Qed.

Lemma only_for_each {A} (l : list A) (body : A -> Table.M unit) :
  (forall x, assigns_indexes_only (body x)) -> assigns_indexes_only (Table.for_each l body).
Proof.
  intros H. induction l as [|x l IH]; cbn [Table.for_each].
  - apply only_ret.
  - apply only_bind; [apply H | intros _; exact IH].
Qed.

Lemma only_for_each_return {A R} (l : list A) (body : A -> Table.M (option R)) :
  (forall x, assigns_indexes_only (body x)) ->
  assigns_indexes_only (Table.for_each_return l body).
Proof.
  intros H. induction l as [|x l IH]; cbn [Table.for_each_return].
  - apply only_ret.
  - apply only_bind; [apply H|]. intros [v|]; [apply only_ret | exact IH].
Qed.

Lemma only_unique_add (col_name : pystr) (v : result pyvalue) :
  assigns_indexes_only (Table.unique_add col_name v).
Proof.
  unfold Table.unique_add.
  apply only_bind; [apply only_getattr | intros indexes].
  apply only_bind; [apply only_lift | intros values].
  apply only_bind; [apply only_lift | intros v'].
  apply only_bind; [apply only_lift | intros values'].
  apply (only_assign (Table.set_unique_indexes (dict_set indexes col_name values'))).
  intros self fs. unfold same_but_indexes. repeat split.
Qed.

(** X29. [_load_indexes] never writes to the disk and, whatever it returns or
    raises, assigns no attribute of the table but [next_page_id] and the
    index attributes.  It leaves [next_page_id] at the larger of its old value
    and one more than every page id the scan yields; when the scan yields
    nothing it raises [UnboundLocalError] and changes nothing. *)
Theorem load_indexes_keeps (self : Table.t) (fs : disk) :
  let pages := FileManager.scan_all_pages (Table.file_manger self) fs (Table.name self) in
  let '(r, (self', fs')) := Table._load_indexes (self, fs) in
  (fs' = fs
   /\ Table.name self' = Table.name self
   /\ Table.columns self' = Table.columns self
   /\ Table.column_order self' = Table.column_order self
   /\ Table.file_manger self' = Table.file_manger self
   /\ Table.primary_key_cols self' = Table.primary_key_cols self
   /\ Table.unique_cols self' = Table.unique_cols self
   /\ Table.next_page_id self'
      = fold_left (fun n page => Z.max n (Page.page_id page + 1)) pages
          (Table.next_page_id self)
   /\ Table.next_page_id self <= Table.next_page_id self'
   /\ (forall p, p ∈ pages -> Page.page_id p < Table.next_page_id self')
   /\ (pages = [] -> r = Raise (UnboundLocalError "page") /\ self' = self)).
Proof.
  intros pages. unfold Table._load_indexes. run.
  change (FileManager.scan_all_pages (Table.file_manger self) fs (Table.name self)) with pages.
  rewrite load_indexes_first_loop. run.
  set (self1 := Table.set_next_page_id _ self).
  destruct (fold_max_page_id pages (Table.next_page_id self)) as (Hle & Hall & _).
  cbv zeta in Hle, Hall.
  destruct (last pages) as [page|] eqn:Hlast.
  - match goal with
    | |- context [Table.for_each_return ?l ?body ?s] =>
        assert (Hkeep : same_but_indexes s (snd (Table.for_each_return l body s)));
        [|destruct (Table.for_each_return l body s) as [r [self' fs']]]
    end.
    { apply only_for_each_return. intros [row_index row].
      apply only_bind; [apply only_get_self | intros self0].
      apply only_bind.
      { apply only_when.
        apply only_bind; [apply only_raise | intros pk_value].
        apply only_bind; [apply only_getattr | intros index].
        apply only_bind; [apply only_lift | intros index'].
        apply (only_assign (Table.set_primary_key_index index')).
        intros self2 fs2. unfold same_but_indexes. repeat split. }
      intros _. apply only_bind; [|intros _; apply only_ret].
      apply only_for_each. intros col_name.
      apply only_bind; [apply only_get_self | intros self2].
      apply only_when, only_unique_add. }
    cbn [fst snd] in Hkeep. unfold same_but_indexes in Hkeep. cbn [fst snd] in Hkeep.
    destruct Hkeep as (Hfs & Hname & Hcols & Horder & Hfm & Hpk & Hu & Hnext & _).
    unfold self1 in *. cbn [Table.set_next_page_id Table.name Table.columns
      Table.column_order Table.file_manger Table.primary_key_cols Table.unique_cols
      Table.next_page_id] in *.
    do 8 (split; [congruence|]). rewrite Hnext.
    split; [exact Hle|]. split; [exact Hall|].
    intros Hnil. rewrite Hnil in Hlast. discriminate.
  - apply last_None in Hlast. unfold self1. rewrite Hlast in *. cbn [fold_left] in *.
    rewrite set_next_page_id_same.
    do 8 (split; [reflexivity|]). split; [lia|].
    split; [intros p Hp; inversion Hp|]. intros _. split; reflexivity.
Qed.

(** ** Files: paths *)




